(** * Verification of the exam-management PDF question pipeline

    Shallow embedding of the parser ([src/parser/extract.py],
    [src/parser/parse_questions.py]) and of the JSONL storage layer
    ([src/utils/storage.py]).

    Python strings are modelled as Rocq strings (sequences of 8-bit
    characters); the embedding is faithful for text whose characters are
    in the range 0..255.  The regular expressions of the source are kept
    as the very pattern strings of the source: [parse_re] reads the
    Python pattern syntax the code uses, and [Regex.m] is a backtracking
    matcher with Python's [re] semantics (leftmost match, ordered
    alternatives, greedy and lazy repetition, lookahead, anchors and the
    IGNORECASE / MULTILINE / DOTALL flags). *)

From Stdlib Require Import Ascii String ZArith Lia Bool.
From Stdlib Require Import Sorting.Sorted.
From stdpp Require Import base list gmap strings.

Open Scope string_scope.
Open Scope nat_scope.
Set Warnings "-register-all".

(* ------------------------------------------------------------------ *)
(** ** Python string primitives *)
(* ------------------------------------------------------------------ *)

Module Py.

Definition code (c : ascii) : nat := nat_of_ascii c.

Definition nl : ascii := "010"%char.
Definition nl_str : string := String nl EmptyString.

(** [str.isspace] for one character (code points 0..255). *)
Definition is_space (c : ascii) : bool :=
  let n := code c in
  ((9 <=? n) && (n <=? 13)) || ((28 <=? n) && (n <=? 32))
  || (n =? 133) || (n =? 160).

(** [str.lower] / [str.upper] for one character (code points 0..255). *)
Definition lower_c (c : ascii) : ascii :=
  let n := code c in
  if ((65 <=? n) && (n <=? 90)) || ((192 <=? n) && (n <=? 222) && negb (n =? 215))
  then ascii_of_nat (n + 32) else c.

Definition upper_c (c : ascii) : ascii :=
  let n := code c in
  if ((97 <=? n) && (n <=? 122)) || ((224 <=? n) && (n <=? 254) && negb (n =? 247))
  then ascii_of_nat (n - 32) else c.

(** [str.isalpha] for one character (code points 0..255). *)
Definition is_alpha (c : ascii) : bool :=
  let n := code c in
  ((65 <=? n) && (n <=? 90)) || ((97 <=? n) && (n <=? 122))
  || (n =? 170) || (n =? 181) || (n =? 186)
  || ((192 <=? n) && (n <=? 214)) || ((216 <=? n) && (n <=? 246))
  || ((248 <=? n) && (n <=? 255)).

Definition chars (s : string) : list ascii := list_ascii_of_string s.
Definition of_chars (l : list ascii) : string := string_of_list_ascii l.

Definition lower (s : string) : string := of_chars (map lower_c (chars s)).

(** [s.lstrip(cs)] / [s.rstrip(cs)] with a character predicate. *)
Fixpoint lstrip_l (p : ascii -> bool) (l : list ascii) : list ascii :=
  match l with
  | c :: l' => if p c then lstrip_l p l' else l
  | [] => []
  end.

Definition rstrip_l (p : ascii -> bool) (l : list ascii) : list ascii :=
  rev (lstrip_l p (rev l)).

(** [s.strip()] *)
Definition strip (s : string) : string :=
  of_chars (rstrip_l is_space (lstrip_l is_space (chars s))).

(** [s.rstrip(c)] for a one-character argument. *)
Definition rstrip_char (c : ascii) (s : string) : string :=
  of_chars (rstrip_l (fun d => Ascii.eqb d c) (chars s)).

(** [s.startswith(p)] *)
Definition startswith (s p : string) : bool := String.prefix p s.

(** [s.find(sub)]: the first index, or [None] for Python's [-1]. *)
Fixpoint find_from (sub s : string) (i : nat) : option nat :=
  if String.prefix sub s then Some i
  else match s with
       | EmptyString => None
       | String _ s' => find_from sub s' (S i)
       end.

Definition find (s sub : string) : option nat := find_from sub s 0.

(** [sub in s] *)
Definition contains (s sub : string) : bool :=
  match find s sub with Some _ => true | None => false end.

(** [s[a:b]] for [a <= b]. *)
Definition slice (s : string) (a b : nat) : string := String.substring a (b - a) s.

(** [s[:a]] and [s[a:]] *)
Definition take (s : string) (a : nat) : string := String.substring 0 a s.
Definition drop (s : string) (a : nat) : string :=
  String.substring a (String.length s - a) s.

(** [sep.join(l)] *)
Definition join (sep : string) (l : list string) : string := String.concat sep l.

(** [int(s)] for a string of ASCII decimal digits. *)
Definition int_of_digits (s : string) : Z :=
  fold_left (fun acc c => (10 * acc + Z.of_nat (code c - 48))%Z) (chars s) 0%Z.

(** [str(n)] for a natural number. *)
Fixpoint digits_rev (fuel n : nat) : list ascii :=
  match fuel with
  | 0 => []
  | S f =>
    let d := ascii_of_nat (48 + n mod 10) in
    if n <? 10 then [d] else d :: digits_rev f (n / 10)
  end.

Definition str_nat (n : nat) : string := of_chars (rev (digits_rev (S n) n)).

End Py.

(* ------------------------------------------------------------------ *)
(** ** Python [re]: patterns, matcher, search, finditer, sub, split *)
(* ------------------------------------------------------------------ *)

Module Regex.
Import Py.

Inductive re : Type :=
| Eps                                   (* empty pattern *)
| Chr (c : ascii)                       (* literal character *)
| Cls (neg : bool) (rs : list (ascii * ascii))  (* [..] / [^..] *)
| Any                                   (* . *)
| Seq (r1 r2 : re)
| Alt (r1 r2 : re)                      (* r1|r2, r1 tried first *)
| Star (greedy : bool) (r : re)         (* r* (greedy) or r*? (lazy) *)
| Group (n : nat) (r : re)              (* capturing group number n *)
| Bol                                   (* ^ *)
| Eol                                   (* $ *)
| EndZ                                  (* \Z *)
| Ahead (r : re).                       (* (?=r) *)

Record flags := { icase : bool; multiline : bool; dotall : bool }.

Definition f0 := {| icase := false; multiline := false; dotall := false |}.
Definition fI := {| icase := true; multiline := false; dotall := false |}.
Definition fIS := {| icase := true; multiline := false; dotall := true |}.
Definition fM := {| icase := false; multiline := true; dotall := false |}.
Definition fMS := {| icase := false; multiline := true; dotall := true |}.

(** *** Reading the pattern syntax *)

Definition space_ranges : list (ascii * ascii) :=
  [("009"%char, "013"%char); ("028"%char, " "%char);
   ("133"%char, "133"%char); ("160"%char, "160"%char)].
Definition digit_ranges : list (ascii * ascii) := [("0"%char, "9"%char)].

Definition hex_val (c : ascii) : nat :=
  let n := code c in
  if n <=? 57 then n - 48 else if n <=? 70 then n - 55 else n - 87.

(** One escaped item [\e...]: a single character or a character set. *)
Definition p_escape (l : list ascii) : option ((ascii + list (ascii * ascii)) * list ascii) :=
  match l with
  | e :: l' =>
    if Ascii.eqb e "d" then Some (inr digit_ranges, l')
    else if Ascii.eqb e "s" then Some (inr space_ranges, l')
    else if Ascii.eqb e "n" then Some (inl nl, l')
    else if Ascii.eqb e "t" then Some (inl "009"%char, l')
    else if Ascii.eqb e "r" then Some (inl "013"%char, l')
    else if Ascii.eqb e "x" then
      match l' with
      | h1 :: h2 :: l'' => Some (inl (ascii_of_nat (16 * hex_val h1 + hex_val h2)), l'')
      | _ => None
      end
    else Some (inl e, l')
  | [] => None
  end.

Definition p_class_atom (l : list ascii) : option ((ascii + list (ascii * ascii)) * list ascii) :=
  match l with
  | c :: l' => if Ascii.eqb c "\" then p_escape l' else Some (inl c, l')
  | [] => None
  end.

Fixpoint p_class_items (n : nat) (l : list ascii) : option (list (ascii * ascii) * list ascii) :=
  match n with
  | 0 => None
  | S n' =>
    match l with
    | c :: l' =>
      if Ascii.eqb c "]" then Some ([], l')
      else
        match p_class_atom l with
        | Some (inr rs, l1) =>
          match p_class_items n' l1 with
          | Some (rs', l2) => Some ((rs ++ rs')%list, l2)
          | None => None
          end
        | Some (inl a, l1) =>
          match l1 with
          | d :: e :: _ =>
            if Ascii.eqb d "-" && negb (Ascii.eqb e "]") then
              match p_class_atom (tl l1) with
              | Some (inl b, l2) =>
                match p_class_items n' l2 with
                | Some (rs', l3) => Some ((a, b) :: rs', l3)
                | None => None
                end
              | _ => None
              end
            else
              match p_class_items n' l1 with
              | Some (rs', l2) => Some ((a, a) :: rs', l2)
              | None => None
              end
          | _ =>
            match p_class_items n' l1 with
            | Some (rs', l2) => Some ((a, a) :: rs', l2)
            | None => None
            end
          end
        | None => None
        end
    | [] => None
    end
  end.

Definition p_quant (a : re) (l : list ascii) : re * list ascii :=
  match l with
  | q :: l' =>
    let lazy := match l' with x :: _ => Ascii.eqb x "?" | [] => false end in
    let rest := if lazy then tl l' else l' in
    if Ascii.eqb q "*" then (Star (negb lazy) a, rest)
    else if Ascii.eqb q "+" then (Seq a (Star (negb lazy) a), rest)
    else if Ascii.eqb q "?" then ((if lazy then Alt Eps a else Alt a Eps), rest)
    else (a, l)
  | [] => (a, l)
  end.

Definition seq_cons (a r : re) : re := match r with Eps => a | _ => Seq a r end.

Definition close (res : option (re * list ascii * nat)) (f : re -> re)
  : option (re * list ascii * nat) :=
  match res with
  | Some (r, c :: l, g) => if Ascii.eqb c ")" then Some (f r, l, g) else None
  | _ => None
  end.

(** [g] is the number the next capturing group gets (groups are numbered
    by their opening parenthesis, from 1). *)
Fixpoint p_alt (n : nat) (l : list ascii) (g : nat) {struct n} : option (re * list ascii * nat) :=
  match n with
  | 0 => None
  | S n' =>
    match p_seq n' l g with
    | Some (r, c :: l', g') =>
      if Ascii.eqb c "|" then
        match p_alt n' l' g' with
        | Some (r2, l2, g2) => Some (Alt r r2, l2, g2)
        | None => None
        end
      else Some (r, c :: l', g')
    | res => res
    end
  end
with p_seq (n : nat) (l : list ascii) (g : nat) {struct n} : option (re * list ascii * nat) :=
  match n with
  | 0 => None
  | S n' =>
    match l with
    | [] => Some (Eps, l, g)
    | c :: _ =>
      if Ascii.eqb c "|" || Ascii.eqb c ")" then Some (Eps, l, g)
      else
        match p_atom n' l g with
        | Some (a, l1, g1) =>
          let '(a', l2) := p_quant a l1 in
          match p_seq n' l2 g1 with
          | Some (r, l3, g3) => Some (seq_cons a' r, l3, g3)
          | None => None
          end
        | None => None
        end
    end
  end
with p_atom (n : nat) (l : list ascii) (g : nat) {struct n} : option (re * list ascii * nat) :=
  match n with
  | 0 => None
  | S n' =>
    match l with
    | c :: l' =>
      if Ascii.eqb c "(" then
        match l' with
        | q :: k :: l'' =>
          if Ascii.eqb q "?" && Ascii.eqb k ":" then close (p_alt n' l'' g) (fun r => r)
          else if Ascii.eqb q "?" && Ascii.eqb k "=" then close (p_alt n' l'' g) Ahead
          else close (p_alt n' l' (S g)) (Group g)
        | _ => close (p_alt n' l' (S g)) (Group g)
        end
      else if Ascii.eqb c "[" then
        let '(neg, l1) := match l' with
                          | x :: l1 => if Ascii.eqb x "^" then (true, l1) else (false, l')
                          | [] => (false, l')
                          end in
        match p_class_items (List.length l1) l1 with
        | Some (rs, l2) => Some (Cls neg rs, l2, g)
        | None => None
        end
      else if Ascii.eqb c "." then Some (Any, l', g)
      else if Ascii.eqb c "^" then Some (Bol, l', g)
      else if Ascii.eqb c "$" then Some (Eol, l', g)
      else if Ascii.eqb c "\" then
        match l' with
        | z :: l'' =>
          if Ascii.eqb z "Z" then Some (EndZ, l'', g)
          else match p_escape l' with
               | Some (inl a, l2) => Some (Chr a, l2, g)
               | Some (inr rs, l2) => Some (Cls false rs, l2, g)
               | None => None
               end
        | [] => None
        end
      else Some (Chr c, l', g)
    | [] => None
    end
  end.

(** The pattern of a Python pattern string, and its number of groups. *)
Definition parse_re_g (p : string) : option (re * nat) :=
  let l := chars p in
  match p_alt (3 * List.length l + 3) l 1 with
  | Some (r, [], g) => Some (r, g - 1)
  | _ => None
  end.

Definition parse_re (p : string) : option re := option_map fst (parse_re_g p).

Definition pat (p : string) : re :=
  match parse_re p with Some r => r | None => Eps end.

Definition ngroups (p : string) : nat :=
  match parse_re_g p with Some (_, g) => g | None => 0 end.

(** *** The backtracking matcher *)

(** Capture registers: group number -> (start, end). *)
Definition caps := list (nat * (nat * nat)).

Definition set_cap (n : nat) (v : nat * nat) (c : caps) : caps :=
  (n, v) :: filter (fun p => negb (fst p =? n)) c.

Fixpoint get_cap (n : nat) (c : caps) : option (nat * nat) :=
  match c with
  | (k, v) :: c' => if k =? n then Some v else get_cap n c'
  | [] => None
  end.

Definition in_ranges (c : ascii) (rs : list (ascii * ascii)) : bool :=
  existsb (fun p => (code (fst p) <=? code c) && (code c <=? code (snd p))) rs.

Section Matcher.
Variable fl : flags.
Variable s : list ascii.

Definition char_at (i : nat) : option ascii := nth_error s i.

Definition chr_ok (a d : ascii) : bool :=
  Ascii.eqb a d || (icase fl && Ascii.eqb (lower_c a) (lower_c d)).

Definition cls_ok (neg : bool) (rs : list (ascii * ascii)) (d : ascii) : bool :=
  xorb neg (in_ranges d rs
            || (icase fl && (in_ranges (lower_c d) rs || in_ranges (upper_c d) rs))).

Definition any_ok (d : ascii) : bool := dotall fl || negb (Ascii.eqb d nl).

Definition is_nl_at (i : nat) : bool :=
  match char_at i with Some d => Ascii.eqb d nl | None => false end.

Definition bol_ok (i : nat) : bool :=
  (i =? 0) || (multiline fl && match i with 0 => false | S j => is_nl_at j end).

Definition eol_ok (i : nat) : bool :=
  (i =? List.length s)
  || (is_nl_at i && (multiline fl || (S i =? List.length s))).

Definition cont := nat -> caps -> option (nat * caps).

(** A repetition [r*] (greedy) or [r*?] (lazy) at [i], [mr] matching one
    iteration of [r].  An iteration that consumes nothing is not taken
    (the repeated patterns of the program never match the empty string);
    [n] bounds the number of iterations, each of which consumes. *)
Fixpoint star_loop (mr : nat -> caps -> cont -> option (nat * caps)) (g : bool) (k : cont)
    (n i : nat) (c : caps) {struct n} : option (nat * caps) :=
  match n with
  | 0 => None
  | S n' =>
    if g then
      match mr i c (fun j c' => if i <? j then star_loop mr g k n' j c' else None) with
      | Some x => Some x
      | None => k i c
      end
    else
      match k i c with
      | Some x => Some x
      | None => mr i c (fun j c' => if i <? j then star_loop mr g k n' j c' else None)
      end
  end.

(** [m r i c k]: match [r] at position [i] with registers [c]; on each way
    [r] can end at [j] (in Python's priority order) run the continuation
    [k j]; the first success wins. *)
Fixpoint m (r : re) (i : nat) (c : caps) (k : cont) {struct r} : option (nat * caps) :=
  match r with
  | Eps => k i c
  | Chr a => match char_at i with
             | Some d => if chr_ok a d then k (S i) c else None
             | None => None
             end
  | Cls neg rs => match char_at i with
                  | Some d => if cls_ok neg rs d then k (S i) c else None
                  | None => None
                  end
  | Any => match char_at i with
           | Some d => if any_ok d then k (S i) c else None
           | None => None
           end
  | Seq r1 r2 => m r1 i c (fun j c' => m r2 j c' k)
  | Alt r1 r2 => match m r1 i c k with
                 | Some x => Some x
                 | None => m r2 i c k
                 end
  | Star g r1 => star_loop (m r1) g k (S (List.length s - i)) i c
  | Group n r1 => m r1 i c (fun j c' => k j (set_cap n (i, j) c'))
  | Bol => if bol_ok i then k i c else None
  | Eol => if eol_ok i then k i c else None
  | EndZ => if i =? List.length s then k i c else None
  | Ahead r1 => match m r1 i c (fun j c' => Some (j, c')) with
                | Some (_, c') => k i c'
                | None => None
                end
  end.

(** A match of the whole pattern starting at [a]; with [ma] (sre's
    [must_advance]) an empty match at [a] is refused. *)
Definition match_at (r : re) (a : nat) (ma : bool) : option (nat * caps) :=
  m r a [] (fun j c => if ma && (j =? a) then None else Some (j, c)).

Record mres := { m_start : nat; m_end : nat; m_caps : caps }.

(** The leftmost match starting at [a] or later. *)
Fixpoint search_from (r : re) (n a : nat) (ma : bool) : option mres :=
  match n with
  | 0 => None
  | S n' =>
    match match_at r a ma with
    | Some (j, c) => Some {| m_start := a; m_end := j; m_caps := c |}
    | None => search_from r n' (S a) false
    end
  end.

Definition search_at (r : re) (pos : nat) (ma : bool) : option mres :=
  search_from r (S (List.length s - pos)) pos ma.

(** The successive matches of [finditer], [sub] and [split]: the next
    search starts at the end of the previous match and must advance when
    that match was empty.  At most [2 * len + 2] matches exist. *)
Fixpoint iter_from (r : re) (n pos : nat) (ma : bool) : list mres :=
  match n with
  | 0 => []
  | S n' =>
    match search_at r pos ma with
    | Some mr => mr :: iter_from r n' (m_end mr) (m_end mr =? m_start mr)
    | None => []
    end
  end.

Definition all_matches (r : re) : list mres :=
  iter_from r (2 * List.length s + 2) 0 false.

Definition lslice (a b : nat) : list ascii := firstn (b - a) (skipn a s).

(** [re.sub] with a literal replacement. *)
Fixpoint sub_pieces (repl : list ascii) (ms : list mres) (last : nat) : list ascii :=
  match ms with
  | [] => skipn last s
  | mr :: ms' => lslice last (m_start mr) ++ repl ++ sub_pieces repl ms' (m_end mr)
  end.

(** [re.split]: pieces between matches, each followed by the groups
    [1..ng] of the match (a group that did not take part gives "",
    where Python gives [None]; the split pattern of the program has no
    such group). *)
Fixpoint split_pieces (ng : nat) (ms : list mres) (last : nat) : list (list ascii) :=
  match ms with
  | [] => [skipn last s]
  | mr :: ms' =>
    lslice last (m_start mr)
      :: map (fun g => match get_cap g (m_caps mr) with
                       | Some (a, b) => lslice a b
                       | None => []
                       end) (seq 1 ng)
      ++ split_pieces ng ms' (m_end mr)
  end.

(** *** What a match means: the relational semantics of patterns *)

(** [Sem r i c j c']: [r] can match [s] from [i] to [j], turning the
    registers [c] into [c']. *)
Inductive Sem : re -> nat -> caps -> nat -> caps -> Prop :=
| Sem_eps i c : Sem Eps i c i c
| Sem_chr a d i c : char_at i = Some d -> chr_ok a d = true -> Sem (Chr a) i c (S i) c
| Sem_cls neg rs d i c : char_at i = Some d -> cls_ok neg rs d = true -> Sem (Cls neg rs) i c (S i) c
| Sem_any d i c : char_at i = Some d -> any_ok d = true -> Sem Any i c (S i) c
| Sem_seq r1 r2 i c j c1 k c2 : Sem r1 i c j c1 -> Sem r2 j c1 k c2 -> Sem (Seq r1 r2) i c k c2
| Sem_altl r1 r2 i c j c' : Sem r1 i c j c' -> Sem (Alt r1 r2) i c j c'
| Sem_altr r1 r2 i c j c' : Sem r2 i c j c' -> Sem (Alt r1 r2) i c j c'
| Sem_star0 g r i c : Sem (Star g r) i c i c
| Sem_star1 g r i c j c1 k c2 :
    Sem r i c j c1 -> i < j -> Sem (Star g r) j c1 k c2 -> Sem (Star g r) i c k c2
| Sem_group n r i c j c' : Sem r i c j c' -> Sem (Group n r) i c j (set_cap n (i, j) c')
| Sem_bol i c : bol_ok i = true -> Sem Bol i c i c
| Sem_eol i c : eol_ok i = true -> Sem Eol i c i c
| Sem_endz i c : i = List.length s -> Sem EndZ i c i c
| Sem_ahead r i c j c' : Sem r i c j c' -> Sem (Ahead r) i c i c'.

(** A chain of successive matches of [r], each starting at or after the
    end of the previous one. *)
Fixpoint chain_ok (r : re) (last : nat) (ms : list mres) : Prop :=
  match ms with
  | [] => True
  | mr :: ms' =>
    last <= m_start mr /\ m_start mr <= m_end mr /\
    Sem r (m_start mr) [] (m_end mr) (m_caps mr) /\ chain_ok r (m_end mr) ms'
  end.

End Matcher.

(** Characters every match of a case-sensitive pattern contains, in order. *)
Fixpoint must (r : re) : list ascii :=
  match r with
  | Chr a => [a]
  | Seq r1 r2 => must r1 ++ must r2
  | Group _ r1 => must r1
  | _ => []
  end.

(** The capturing groups of a pattern. *)
Fixpoint groups (r : re) : list nat :=
  match r with
  | Seq r1 r2 | Alt r1 r2 => groups r1 ++ groups r2
  | Star _ r1 | Ahead r1 => groups r1
  | Group n r1 => n :: groups r1
  | _ => []
  end.

(** String-level API, as the program calls it. *)
Definition search (fl : flags) (p t : string) : option mres :=
  search_at fl (chars t) (pat p) 0 false.

Definition finditer (fl : flags) (p t : string) : list mres :=
  all_matches fl (chars t) (pat p).

Definition group (t : string) (mr : mres) (n : nat) : string :=
  match get_cap n (m_caps mr) with
  | Some (a, b) => slice t a b
  | None => ""
  end.

(** [match.group()] *)
Definition group0 (t : string) (mr : mres) : string := slice t (m_start mr) (m_end mr).

Definition sub (fl : flags) (p repl t : string) : string :=
  of_chars (sub_pieces (chars t) (chars repl) (all_matches fl (chars t) (pat p)) 0).

Definition split (fl : flags) (p t : string) : list string :=
  map of_chars (split_pieces (chars t) (ngroups p) (all_matches fl (chars t) (pat p)) 0).

End Regex.

(* ------------------------------------------------------------------ *)
(** ** Python dicts (insertion ordered) and JSON values *)
(* ------------------------------------------------------------------ *)

Module Dict.

(** A dict as its list of items, in insertion order. *)
Definition dict (K V : Type) := list (K * V).

Section D.
Context {K V : Type} (eqk : K -> K -> bool).

(** [d.get(k)] *)
Fixpoint get (k : K) (d : dict K V) : option V :=
  match d with
  | (k', v) :: d' => if eqk k' k then Some v else get k d'
  | [] => None
  end.

(** [d[k] = v]: an existing key keeps its position, a new key goes last. *)
Fixpoint set (k : K) (v : V) (d : dict K V) : dict K V :=
  match d with
  | (k', v') :: d' => if eqk k' k then (k', v) :: d' else (k', v') :: set k v d'
  | [] => [(k, v)]
  end.

Definition keys (d : dict K V) : list K := map fst d.

(** The keys a run of [d[k] = ...] assignments leaves, in order. *)
Definition add_key (ks : list K) (k : K) : list K :=
  if existsb (eqk k) ks then ks else ks ++ [k].

Definition first_occurrences (l : list K) : list K := fold_left add_key l [].
End D.

End Dict.

(** JSON documents, as [json.dumps] / [json.loads] exchange them.  The
    numbers are integers: the app never writes a number with a fraction
    or an exponent (the parser's records hold strings, integers, [None],
    lists and dicts; the edit page writes strings), so exam files holding
    floats are outside the model. *)
Inductive json : Type :=
| JNull
| JBool (b : bool)
| JInt (z : Z)
| JStr (s : string)
| JList (l : list json)
| JObj (l : list (string * json)).

(** A question record: a JSON object, i.e. a dict with string keys. *)
Definition record := Dict.dict string json.

(* ------------------------------------------------------------------ *)
(** ** [src/parser/extract.py] *)
(* ------------------------------------------------------------------ *)

Module Extract.
Import Py Regex.

(** What PyMuPDF reports for one page: its text, the entries of
    [page.get_images(full=True)] (xref, and the extension when
    [doc.extract_image] succeeds), the items of [page.get_drawings()]
    (per drawing: whether the item is an ["im"] item, its xref, and the
    extension when extraction succeeds), and the pixmap size ([None] when
    [page.get_pixmap()] raises). *)
Record page := {
  pg_text : string;
  pg_images : list (Z * option string);
  pg_drawings : list (list (bool * Z * option string));
  pg_pixmap : option (nat * nat)
}.

Definition page_marker (n : nat) : string :=
  nl_str ++ "--- PAGE " ++ str_nat n ++ " ---" ++ nl_str.

Definition img_filename (pdf_name : string) (page_num img_index : nat) (ext : string) : string :=
  pdf_name ++ "_page" ++ str_nat (page_num + 1) ++ "_img" ++ str_nat (img_index + 1) ++ "." ++ ext.

Definition drawing_filename (pdf_name : string) (page_num drawing_index : nat) (ext : string) : string :=
  pdf_name ++ "_page" ++ str_nat (page_num + 1) ++ "_drawing" ++ str_nat (drawing_index + 1) ++ "." ++ ext.

Definition fullpage_filename (pdf_name : string) (page_num : nat) : string :=
  pdf_name ++ "_page" ++ str_nat (page_num + 1) ++ "_fullpage.png".

(** Method 1: standard images, de-duplicated by xref. *)
Fixpoint method1 (pdf_name : string) (page_num img_index : nat)
    (imgs : list (Z * option string)) (seen : list Z) : list string * list Z :=
  match imgs with
  | [] => ([], seen)
  | (xref, ext) :: imgs' =>
    if existsb (Z.eqb xref) seen then method1 pdf_name page_num (S img_index) imgs' seen
    else
      let '(names, seen') := method1 pdf_name page_num (S img_index) imgs' (xref :: seen) in
      match ext with
      | Some e => (img_filename pdf_name page_num img_index e :: names, seen')
      | None => (names, seen')
      end
  end.

(** Method 2: image items of drawings, same xref set. *)
Fixpoint method2_items (pdf_name : string) (page_num drawing_index : nat)
    (items : list (bool * Z * option string)) (seen : list Z) : list string * list Z :=
  match items with
  | [] => ([], seen)
  | (is_im, xref, ext) :: items' =>
    if is_im && negb (existsb (Z.eqb xref) seen) then
      let '(names, seen') := method2_items pdf_name page_num drawing_index items' (xref :: seen) in
      match ext with
      | Some e => (drawing_filename pdf_name page_num drawing_index e :: names, seen')
      | None => (names, seen')
      end
    else method2_items pdf_name page_num drawing_index items' seen
  end.

Fixpoint method2 (pdf_name : string) (page_num drawing_index : nat)
    (drawings : list (list (bool * Z * option string))) (seen : list Z) : list string :=
  match drawings with
  | [] => []
  | items :: drawings' =>
    let '(names, seen') := method2_items pdf_name page_num drawing_index items seen in
    names ++ method2 pdf_name page_num (S drawing_index) drawings' seen'
  end.

(** Method 4: the rendered page, when large enough. *)
Definition method4 (pdf_name : string) (page_num : nat) (pix : option (nat * nat)) : list string :=
  match pix with
  | Some (w, h) =>
    if (100 <? w) && (100 <? h) && ((400 <? w) || (400 <? h))
    then [fullpage_filename pdf_name page_num] else []
  | None => []
  end.

Definition page_images (pdf_name : string) (page_num : nat) (p : page) : list string :=
  let '(n1, seen) := method1 pdf_name page_num 0 (pg_images p) [] in
  n1 ++ method2 pdf_name page_num 0 (pg_drawings p) seen ++ method4 pdf_name page_num (pg_pixmap p).

(** [extract_text_and_images]: (full_text, image file names). *)
Fixpoint extract_pages (pdf_name : string) (page_num : nat) (pages : list page) : string * list string :=
  match pages with
  | [] => ("", [])
  | p :: pages' =>
    let '(t, imgs) := extract_pages pdf_name (S page_num) pages' in
    (page_marker (page_num + 1) ++ pg_text p ++ t,
     (page_images pdf_name page_num p ++ imgs)%list)
  end.

Definition extract_text_and_images (pdf_name : string) (pages : list page) : string * list string :=
  extract_pages pdf_name 0 pages.

(** [clean_text] *)
Definition clean_text (text : string) : string :=
  let text := sub fI "www\.examtopics\.com" "" text in
  let text := sub fI "Page \d+ of \d+" "" text in
  let text := sub fI "Exam [A-Z]+-\d+" "" text in
  let text := sub fIS "Microsoft Certified.*?(?:Question Bank|Study Materials|ExamTopics).*?(?:\(|-|\d+ of \d+|$)" "" text in
  let text := sub fIS "Question Bank.*?(?:\(|-|\d+ of \d+|$)" "" text in
  let text := sub fIS "ExamTopics.*?(?:\(|\d+ of \d+|$)" "" text in
  let text := sub f0 "[^\x20-\x7E\n\r\t]" "" text in
  let text := sub f0 "\x0c" "" text in
  let text := sub f0 "\x0b" "" text in
  let text := sub f0 "\*\*+" "" text in
  let text := sub f0 "__+" "" text in
  let text := sub fIS "(?:HOTSPOT|Case study|Overview|Existing Environment).*?(?=\n\n|\Z)" "" text in
  let text := sub fIS "This is a case study\..*?(?=Question|\Z)" "" text in
  let text := sub f0 "\n\s*\n\s*\n+" (nl_str ++ nl_str) text in
  let text := sub f0 " +" " " text in
  let text := sub f0 "\n +" nl_str text in
  let text := sub f0 " +\n" nl_str text in
  strip text.

End Extract.

(* ------------------------------------------------------------------ *)
(** ** [src/parser/parse_questions.py] *)
(* ------------------------------------------------------------------ *)

Module Parse.
Import Py Regex.

Definition endswith (s p : string) : bool :=
  String.prefix (of_chars (rev (chars p))) (of_chars (rev (chars s))).

(** [detect_question_type] *)
Definition multi_keywords : list string :=
  ["select two"; "select three"; "choose two"; "choose three";
   "select all that apply"; "choose all that apply"; "select all";
   "pick two"; "pick three"; "two correct"; "three correct";
   "each correct selection"; "multiple answers"].

Definition drag_keywords : list string :=
  ["drag"; "drop"; "match"; "order"; "arrange"; "sequence"; "hotspot"; "hot area"].

Definition input_keywords : list string :=
  ["your answer"; "_____"; "fill in"; "type the"; "enter the"].

Definition detect_question_type (question_stem : string)
    (choices : Dict.dict string string) (has_image : bool) : string :=
  let stem_lower := lower question_stem in
  let choice_text := lower (join " " (map snd choices)) in
  if (List.length choices =? 2) && contains choice_text "yes" && contains choice_text "no"
  then "yes_no"
  else if existsb (contains stem_lower) multi_keywords then "multiple_choice_multiple"
  else if existsb (contains stem_lower) drag_keywords then "input_text"
  else if existsb (contains stem_lower) input_keywords || (List.length choices =? 0)
  then "input_text"
  else if has_image && (List.length choices <=? 2) then "image_selection"
  else "multiple_choice_single".

(** [extract_choices] *)
Definition choice_pattern : string :=
  "^([A-Z])[.)]\s*(.+?)(?=^[A-Z][.)]|Microsoft Certified|Suggested Answer|Discussion|Hot Area|Note:|HOTSPOT|\Z)".

Definition explanation_patterns : list string :=
  [ "^The\s+(majority|comments|community)";
    "\s+The\s+(majority|comments|community)";
    "\s+the\s+(majority|comments|community)";
    "\s+(because|since|as|therefore|however|although|while|when|where|if)\s+";
    "\s+(agree|recommends?|suggests?|explains?|indicates?|shows?|demonstrates?)\s+";
    ":\s*.";
    "\.\s+(This|It|However|Therefore|Also|While|Although|The|Since|Because|As|If|When|Where)\s+";
    "\s+-\s+";
    "\.\s+Citations";
    "\.\s+Refer\s+to";
    "\.\s+See\s+";
    "\.\s+For\s+more";
    "\s+AI\s+Recommended";
    "\s+Several\s+users";
    "\s+Many\s+comments";
    "\s+Furthermore";
    "\s+receives?\s+the\s+license";
    "\s+inherits?\s+the";
    "\.\s+The\s+comments?\s+(agree|recommends?|suggests?)";
    "\s+the\s+comments?\s+(agree|recommends?|suggests?)";
    "\s+receives?\s+the\s+license\s+through";
    "\s+does\s+not\s+inherit";
    "\s+is\s+incorrect\s+because" ].

Definition explanation_starters : list string :=
  ["this"; "while"; "although"; "however"; "because"; "since";
   "the"; "it"; "management"; "creating"; "using"; "modifying";
   "a "; "an "; "is "; "are "; "was "; "were "; "will "; "would "].

(** Split at the first explanation pattern (in list order) that matches. *)
Fixpoint cut_explanation (ps : list string) (t : string) : string :=
  match ps with
  | [] => t
  | p :: ps' =>
    match search fI p t with
    | Some mr =>
      let t' := strip (take t (m_start mr)) in
      if negb (endswith t' ".") && startswith (group0 t mr) "." then t' ++ "." else t'
    | None => cut_explanation ps' t
    end
  end.

Definition colon_rule (t : string) : string :=
  match find t ":" with
  | Some k =>
    let before_colon := strip (take t k) in
    let after_colon := strip (drop t (S k)) in
    if (30 <? String.length after_colon)
       || existsb (startswith (lower after_colon)) explanation_starters
       || ((10 <? String.length before_colon) && (0 <? String.length after_colon))
    then before_colon else t
  | None => t
  end.

Definition long_rule (t : string) : string :=
  if (200 <? String.length t) && contains t "." then
    match find t "." with
    | Some first_period => if 20 <? first_period then take t (first_period + 1) else t
    | None => t
    end
  else t.

(** The cleaning of one matched option text. *)
Definition clean_choice (raw : string) : string :=
  let t := strip raw in
  let t := sub fIS "Microsoft Certified.*?(?:Question Bank|Study Materials|ExamTopics).*?(?:\(|-|\d+\s+of\s+\d+\)|$)" "" t in
  let t := sub fIS "Question Bank.*?(?:\(|-|\d+\s+of\s+\d+\)|$)" "" t in
  let t := sub fIS "ExamTopics.*?(?:\(|\d+\s+of\s+\d+\)|$)" "" t in
  let t := sub fI "\(?\d+\s+of\s+\d+\)" "" t in
  let t := cut_explanation explanation_patterns t in
  let t := colon_rule t in
  let t := strip (rstrip_char ":" t) in
  let t := sub f0 "\s+" " " t in
  let t := sub fI "\s*(Microsoft Certified|Question Bank|ExamTopics).*$" "" t in
  let t := rstrip_char "." t in
  let t := long_rule t in
  strip t.

Definition extract_choices (text : string) : Dict.dict string string :=
  fold_left (fun choices mr =>
               Dict.set String.eqb (group text mr 1) (clean_choice (group text mr 2)) choices)
            (finditer fMS choice_pattern text) [].

(** [extract_answer] *)
Definition answer_patterns (answer_type : string) : list string :=
  [ answer_type ++ ":\s*([A-Z,\s]+?)(?=\n|Discussion|$)";
    answer_type ++ "\s*:\s*([A-Z,\s]+?)(?=\n|Discussion|$)";
    answer_type ++ "\s+([A-Z,\s]+?)(?=\n|Discussion|$)" ].

Fixpoint first_answer (ps : list string) (text : string) : option string :=
  match ps with
  | [] => None
  | p :: ps' =>
    match search fI p text with
    | Some mr =>
      let answer := strip (group text mr 1) in
      let answer := of_chars (filter (fun c => is_alpha c || Ascii.eqb c ",") (chars answer)) in
      Some (sub fI "[^A-Z,]+$" "" answer)
    | None => first_answer ps' text
    end
  end.

Definition extract_answer (text answer_type : string) : option string :=
  first_answer (answer_patterns answer_type) text.

(** [extract_explanation] *)
Definition explanation_tail : string :=
  "(?=\n(?:Suggested Answer|Web Recommended|Community Answer|AI Recommended|Question \d+|\Z))".

Fixpoint first_explanation (ps : list string) (text : string) : option string :=
  match ps with
  | [] => None
  | p :: ps' =>
    match search fIS p text with
    | Some mr =>
      let e := strip (group text mr 1) in
      let e := sub f0 "\s+" " " e in
      let e := sub fIS "Microsoft Certified.*?(?:Question Bank|Study Materials|ExamTopics).*?(?:\(|-|\d+\s+of\s+\d+\)|$)" "" e in
      let e := sub fIS "Question Bank.*?(?:\(|-|\d+\s+of\s+\d+\)|$)" "" e in
      let e := sub fI "\(?\d+\s+of\s+\d+\)" "" e in
      Some (strip e)
    | None => first_explanation ps' text
    end
  end.

Definition extract_explanation (text explanation_type : string) : option string :=
  first_explanation [explanation_type ++ ":\s*(.+?)" ++ explanation_tail;
                     explanation_type ++ "\s*(.+?)" ++ explanation_tail] text.

(** [parse_questions_from_text], block by block. *)
Definition question_pattern : string := "(?:^|\n)Question\s*(\d*)\s*\n".

Definition answer_markers : list string :=
  ["Suggested Answer:"; "Discussion Summary"; "AI Recommended Answer";
   "Web Recommended Answer"; "Community Answer"].

(** The marker loop: cut at the first marker of the list that occurs. *)
Fixpoint cut_at_markers (ms : list string) (question_stem : string) : string :=
  match ms with
  | [] => question_stem
  | marker :: ms' =>
    match find question_stem marker with
    | Some marker_pos => strip (take question_stem marker_pos)
    | None => cut_at_markers ms' question_stem
    end
  end.

Definition page_number_of (question_block : string) : Z :=
  match search f0 "--- PAGE (\d+) ---" question_block with
  | Some mr => int_of_digits (group question_block mr 1)
  | None => 1%Z
  end.

Definition remove_page_markers (question_block : string) : string :=
  sub f0 "--- PAGE \d+ ---" "" question_block.

(** Stem region and choices region of a block (page markers removed). *)
Definition split_stem (question_block : string) : string * string :=
  match search f0 "\n([A-Z])[.)]\s+" question_block with
  | Some mr => (strip (take question_block (m_start mr)),
                strip (drop question_block (m_start mr)))
  | None => (strip question_block, "")
  end.

Definition clean_stem (question_stem : string) : string :=
  let question_stem := cut_at_markers answer_markers question_stem in
  let question_stem := sub fIS "Microsoft Certified.*?(?:Question Bank|Study Materials|ExamTopics).*?(?:\(|-|\d+\s+of\s+\d+\)|$)" "" question_stem in
  let question_stem := sub fIS "Question Bank.*?(?:\(|-|\d+\s+of\s+\d+\)|$)" "" question_stem in
  let question_stem := sub fI "\(?\d+\s+of\s+\d+\)" "" question_stem in
  strip question_stem.

(** [x or ""] and [x or y] on optional strings ([None] and "" are falsy). *)
Definition or_empty (x : option string) : string :=
  match x with Some a => a | None => "" end.
Definition py_or (x y : option string) : option string :=
  match x with Some a => if String.eqb a "" then y else x | None => y end.

Definition parse_block (source_pdf : string) (images_by_page : Dict.dict Z (list string))
    (question_index : nat) (pdf_question_number question_block : string) : option record :=
  if String.eqb (strip question_block) "" then None
  else
    let page_number := page_number_of question_block in
    let question_block := remove_page_markers question_block in
    let '(question_stem, rest_of_block) := split_stem question_block in
    let question_stem := clean_stem question_stem in
    let choices := extract_choices rest_of_block in
    let question_images := match Dict.get Z.eqb page_number images_by_page with
                           | Some l => l | None => [] end in
    let pdf_answer := extract_answer question_block "Suggested Answer" in
    let web_answer := py_or (extract_answer question_block "Web Recommended Answer")
                            (extract_answer question_block "Community Answer") in
    let ai_answer := extract_answer question_block "AI Recommended Answer" in
    let web_explanation := extract_explanation question_block "Discussion Summary" in
    let ai_explanation := extract_explanation question_block "AI Recommended Answer" in
    let has_image := negb (List.length question_images =? 0) in
    let question_type := detect_question_type question_stem choices has_image in
    Some [("question_id", JInt (Z.of_nat question_index));
          ("pdf_question_number",
             JStr (if String.eqb pdf_question_number "" then str_nat question_index
                   else pdf_question_number));
          ("source_pdf", JStr source_pdf);
          ("page_number", JInt page_number);
          ("question_type", JStr question_type);
          ("question", JStr question_stem);
          ("choices", JObj (map (fun kv => (fst kv, JStr (snd kv))) choices));
          ("pdf_answer", JStr (or_empty pdf_answer));
          ("web_recommended_answer", JStr (or_empty web_answer));
          ("ai_recommended_answer", JStr (or_empty ai_answer));
          ("web_explanation", JStr (or_empty web_explanation));
          ("ai_explanation", JStr (or_empty ai_explanation));
          ("images", JList (map JStr question_images));
          ("user_answer", JNull)].

(** The [while] loop over [(number, block)] pairs of the split. *)
Fixpoint parse_pairs (source_pdf : string) (images_by_page : Dict.dict Z (list string))
    (question_index : nat) (splits : list string) {struct splits} : list record :=
  match splits with
  | [] => []
  | [num] =>
    match parse_block source_pdf images_by_page (S question_index) num "" with
    | Some q => [q] | None => [] end
  | num :: block :: rest =>
    match parse_block source_pdf images_by_page (S question_index) num block with
    | Some q => q :: parse_pairs source_pdf images_by_page (S question_index) rest
    | None => parse_pairs source_pdf images_by_page (S question_index) rest
    end
  end.

Definition parse_questions_from_text (text source_pdf : string)
    (images_by_page : Dict.dict Z (list string)) : list record :=
  let splits := split fM question_pattern text in
  let splits := if 1 <? List.length splits then tl splits else splits in
  parse_pairs source_pdf images_by_page 0 splits.

(** [map_images_to_pages] (the [text] argument is not used). *)
Definition map_images_to_pages (text : string) (all_images : list string)
    : Dict.dict Z (list string) :=
  fold_left (fun images_by_page image_name =>
               match search f0 "_page(\d+)_img\d+" image_name with
               | Some mr =>
                 let page_num := int_of_digits (group image_name mr 1) in
                 let l := match Dict.get Z.eqb page_num images_by_page with
                          | Some l => l | None => [] end in
                 Dict.set Z.eqb page_num (l ++ [image_name])%list images_by_page
               | None => images_by_page
               end) all_images [].
End Parse.

(* ------------------------------------------------------------------ *)
(** ** Paths of [src/utils/storage.py] and the callers in [src/app.py] *)
(* ------------------------------------------------------------------ *)

Module Paths.
Import Py.

(** [os.path.join(a, b)] (posixpath) for two components. *)
Definition path_join (a b : string) : string :=
  if startswith b "/" then b
  else if String.eqb a "" || Parse.endswith a "/" then a ++ b
  else a ++ "/" ++ b.

(** [get_exam_dir] and [get_exam_file_path] *)
Definition get_exam_dir (exam_name : string) : string := path_join "data" exam_name.

Definition get_exam_file_path (exam_name : string) : string :=
  path_join (get_exam_dir exam_name) "exam.jsonl".

End Paths.

(* ------------------------------------------------------------------ *)
(** ** [src/utils/storage.py] *)
(* ------------------------------------------------------------------ *)

Module Storage.

(** The exam files, keyed by their path [get_exam_file_path exam_name]
    (two exam names with the same path share one file): each holds one
    JSON record per line.  [json.loads (json.dumps q)] gives back [q] for
    the JSON values of [json], so a file is modelled by the list of its
    records ([None] when the file does not exist).  [writes] logs the
    path written by every [save_exam] call, in order. *)
Record fs := { files : gmap string (list record); writes : list string }.

(** State with Python exceptions: [None] means an exception escaped;
    the effects done before it are kept. *)
Definition M (A : Type) := fs -> option A * fs.

Definition ret {A} (a : A) : M A := fun st => (Some a, st).
Definition raise {A} : M A := fun st => (None, st).
Definition bind {A B} (m : M A) (k : A -> M B) : M B :=
  fun st => match m st with
            | (Some a, st') => k a st'
            | (None, st') => (None, st')
            end.

Notation "'let!' x ':=' m 'in' k" := (bind m (fun x => k))
  (at level 200, x name, m at level 100, k at level 200).

(** [load_exam]: a missing file is the empty collection. *)
Definition stored (st : fs) (exam_name : string) : list record :=
  match files st !! Paths.get_exam_file_path exam_name with Some l => l | None => [] end.

Definition load_exam (exam_name : string) : M (list record) :=
  fun st => (Some (stored st exam_name), st).

(** [save_exam]: rewrites the whole file. *)
Definition save_exam (exam_name : string) (questions : list record) : M unit :=
  fun st => let file_path := Paths.get_exam_file_path exam_name in
            (Some tt, {| files := <[file_path := questions]> (files st);
                         writes := writes st ++ [file_path] |}).

(** [q.get("question_id", 0)] and [q.get("question_id")]. *)
Definition get_qid_or_0 (q : record) : json :=
  match Dict.get String.eqb "question_id" q with Some v => v | None => JInt 0 end.

(** Integer value of a JSON value in Python arithmetic ([bool] is an
    [int]); [int + x] raises [TypeError] for the other values. *)
Definition as_int (v : json) : option Z :=
  match v with
  | JInt z => Some z
  | JBool b => Some (if b then 1 else 0)%Z
  | _ => None
  end.

(** [a < b] on strings: Py.code point order, a proper prefix first. *)
Fixpoint str_ltb (a b : list ascii) : bool :=
  match a, b with
  | [], [] => false
  | [], _ => true
  | _, [] => false
  | x :: a', y :: b' =>
    if Py.code x <? Py.code y then true
    else if Py.code y <? Py.code x then false
    else str_ltb a' b'
  end.


(** Python [a == b] on JSON values: numbers (with [bool]) by value,
    strings by content, lists element by element, dicts key by key (a
    dict from [json.loads] has distinct keys); values of different kinds
    are unequal. *)
Fixpoint py_eq (a b : json) : bool :=
  match a, b with
  | JNull, JNull => true
  | JStr s, JStr t => String.eqb s t
  | JList l, JList m =>
    (fix go (l m : list json) : bool :=
       match l, m with
       | [], [] => true
       | x :: l', y :: m' => py_eq x y && go l' m'
       | _, _ => false
       end) l m
  | JObj d, JObj e =>
    Nat.eqb (List.length d) (List.length e) &&
    (fix go (d : list (string * json)) : bool :=
       match d with
       | [] => true
       | (k, v) :: d' =>
         match Dict.get String.eqb k e with
         | Some v' => py_eq v v' && go d'
         | None => false
         end
       end) d
  | _, _ =>
    match as_int a, as_int b with
    | Some x, Some y => Z.eqb x y
    | _, _ => false
    end
  end.

(** Python [a > b] on JSON values ([None]: [TypeError]): numbers (with
    [bool]) by value, strings by code points, lists at their first
    unequal position and else by length; other pairs are not ordered. *)
Fixpoint py_gt (a b : json) : option bool :=
  match a, b with
  | JStr s, JStr t => Some (str_ltb (Py.chars t) (Py.chars s))
  | JList l, JList m =>
    (fix go (l m : list json) : option bool :=
       match l, m with
       | x :: l', y :: m' => if py_eq x y then go l' m' else py_gt x y
       | _ :: _, [] => Some true
       | [], _ => Some false
       end) l m
  | _, _ =>
    match as_int a, as_int b with
    | Some x, Some y => Some (Z.gtb x y)
    | _, _ => None
    end
  end.

(** [max(iterable)] as CPython computes it: the first item is the
    running maximum, and a later item replaces it when [item > maximum]. *)
Fixpoint py_max_from (maxitem : json) (items : list json) : option json :=
  match items with
  | [] => Some maxitem
  | item :: items' =>
    match py_gt item maxitem with
    | Some true => py_max_from item items'
    | Some false => py_max_from maxitem items'
    | None => None
    end
  end.

(** [max_id = 0; if existing_questions: max_id = max(q.get("question_id", 0) ...)] *)
Definition max_id_of (existing : list record) : M json :=
  match map get_qid_or_0 existing with
  | [] => ret (JInt 0)
  | v :: vs => match py_max_from v vs with Some m => ret m | None => raise end
  end.

(** [question["question_id"] = max_id + i + 1] for each new question,
    once [max_id] is an [int] (the caller's dicts are updated in place;
    the caller does not use them afterwards, so the new values are what
    matters). *)
Fixpoint renumber (max_id : Z) (i : nat) (new_questions : list record) : list record :=
  match new_questions with
  | [] => []
  | q :: qs => Dict.set String.eqb "question_id" (JInt (max_id + Z.of_nat i + 1)) q
               :: renumber max_id (S i) qs
  end.

(** [append_questions_to_exam]: with no new question the loop body never
    runs; otherwise [max_id + 0] raises [TypeError] at the first question
    unless [max_id] is an [int]. *)
Definition append_questions_to_exam (exam_name : string) (new_questions : list record) : M unit :=
  let! existing_questions := load_exam exam_name in
  let! max_id := max_id_of existing_questions in
  match new_questions, as_int max_id with
  | [], _ => save_exam exam_name existing_questions
  | _ :: _, Some m => save_exam exam_name (existing_questions ++ renumber m 0 new_questions)
  | _ :: _, None => raise
  end.

(** [q.get("question_id") == question_id] *)
Definition qid_matches (question_id : Z) (q : record) : bool :=
  match Dict.get String.eqb "question_id" q with
  | Some v => match as_int v with Some z => Z.eqb z question_id | None => false end
  | None => false
  end.

Fixpoint find_index {A} (p : A -> bool) (l : list A) : option nat :=
  match l with
  | [] => None
  | x :: l' => if p x then Some 0 else option_map S (find_index p l')
  end.

(** [update_exam_question] *)
Definition update_exam_question (exam_name : string) (question_id : Z)
    (updated_question : record) : M bool :=
  let! questions := load_exam exam_name in
  match find_index (qid_matches question_id) questions with
  | Some i =>
    let! _ := save_exam exam_name (<[i := updated_question]> questions) in
    ret true
  | None => ret false
  end.

End Storage.

(* ------------------------------------------------------------------ *)
(** ** [json.dumps] / [json.loads] and the JSONL files of [src/utils/storage.py] *)
(* ------------------------------------------------------------------ *)

Module Json.
Import Py.
Local Open Scope list_scope.

Definition quote : ascii := "034".
Definition backslash : ascii := "092".

(** Lower-case hexadecimal digit, as [json] writes [\u00XX]. *)
Definition hex_digit (n : nat) : ascii := ascii_of_nat (if n <? 10 then 48 + n else 87 + n).

(** [json.dumps] of one character of a string (default [ensure_ascii=True]):
    printable ASCII other than the quote and the backslash as is, the
    short escapes, every other character as [\u00XX]. *)
Definition enc_char (c : ascii) : list ascii :=
  let n := code c in
  if Ascii.eqb c backslash then [backslash; backslash]
  else if Ascii.eqb c quote then [backslash; quote]
  else if (32 <=? n) && (n <=? 126) then [c]
  else if n =? 8 then [backslash; "b"%char]
  else if n =? 12 then [backslash; "f"%char]
  else if n =? 10 then [backslash; "n"%char]
  else if n =? 13 then [backslash; "r"%char]
  else if n =? 9 then [backslash; "t"%char]
  else [backslash; "u"%char; "0"%char; "0"%char; hex_digit (n / 16); hex_digit (n mod 16)].

Definition enc_str (s : string) : list ascii :=
  quote :: flat_map enc_char (chars s) ++ [quote].

(** [int.__repr__] *)
Definition int_repr (z : Z) : list ascii :=
  if (z <? 0)%Z then "-"%char :: chars (str_nat (Z.to_nat (- z)))
  else chars (str_nat (Z.to_nat z)).

(** [json.dumps(v)] with the default separators [", "] and [": "]. *)
Fixpoint dumps_l (v : json) : list ascii :=
  match v with
  | JNull => chars "null"
  | JBool b => chars (if b then "true" else "false")
  | JInt z => int_repr z
  | JStr s => enc_str s
  | JList l =>
    "["%char :: (fix items (l : list json) : list ascii :=
                   match l with
                   | [] => []
                   | x :: l' => match l' with
                                | [] => dumps_l x
                                | _ => dumps_l x ++ chars ", " ++ items l'
                                end
                   end) l ++ ["]"%char]
  | JObj kvs =>
    "{"%char :: (fix items (kvs : list (string * json)) : list ascii :=
                   match kvs with
                   | [] => []
                   | (k, x) :: kvs' =>
                     match kvs' with
                     | [] => enc_str k ++ chars ": " ++ dumps_l x
                     | _ => enc_str k ++ chars ": " ++ dumps_l x ++ chars ", " ++ items kvs'
                     end
                   end) kvs ++ ["}"%char]
  end.

Definition dumps (v : json) : string := of_chars (dumps_l v).

(** [json.loads]: the decoder of the C scanner. *)
Definition is_ws (c : ascii) : bool :=
  Ascii.eqb c " " || Ascii.eqb c "009" || Ascii.eqb c "010" || Ascii.eqb c "013".

Fixpoint skip_ws (l : list ascii) : list ascii :=
  match l with
  | c :: l' => if is_ws c then skip_ws l' else l
  | [] => []
  end.

Definition is_digit (c : ascii) : bool := (48 <=? code c) && (code c <=? 57).

Fixpoint strip_prefix (p l : list ascii) : option (list ascii) :=
  match p, l with
  | [], _ => Some l
  | a :: p', b :: l' => if Ascii.eqb a b then strip_prefix p' l' else None
  | _ :: _, [] => None
  end.

Definition hex_val_opt (c : ascii) : option nat :=
  let n := code c in
  if is_digit c then Some (n - 48)
  else if (97 <=? n) && (n <=? 102) then Some (n - 87)
  else if (65 <=? n) && (n <=? 70) then Some (n - 55)
  else None.

Definition unescape (e : ascii) : option ascii :=
  if Ascii.eqb e quote then Some quote
  else if Ascii.eqb e backslash then Some backslash
  else if Ascii.eqb e "/" then Some "/"%char
  else if Ascii.eqb e "b" then Some "008"%char
  else if Ascii.eqb e "f" then Some "012"%char
  else if Ascii.eqb e "n" then Some "010"%char
  else if Ascii.eqb e "r" then Some "013"%char
  else if Ascii.eqb e "t" then Some "009"%char
  else None.

(** The body of a string, after its opening quote (strict mode: a raw
    control character is an error).  A [\uXXXX] escape beyond U+00FF is
    outside the 8-bit model and gives [None]. *)
Fixpoint p_string (l : list ascii) : option (list ascii * list ascii) :=
  match l with
  | [] => None
  | c :: r =>
    if Ascii.eqb c quote then Some ([], r)
    else if Ascii.eqb c backslash then
      match r with
      | [] => None
      | e :: r' =>
        if Ascii.eqb e "u" then
          match r' with
          | a :: b :: c2 :: d :: r'' =>
            match hex_val_opt a, hex_val_opt b, hex_val_opt c2, hex_val_opt d with
            | Some a, Some b, Some c2, Some d =>
              let n := ((a * 16 + b) * 16 + c2) * 16 + d in
              if n <? 256 then option_map (fun p => (ascii_of_nat n :: fst p, snd p)) (p_string r'')
              else None
            | _, _, _, _ => None
            end
          | _ => None
          end
        else match unescape e with
             | Some d => option_map (fun p => (d :: fst p, snd p)) (p_string r')
             | None => None
             end
      end
    else if code c <? 32 then None
    else option_map (fun p => (c :: fst p, snd p)) (p_string r)
  end.

Fixpoint span_digits (l : list ascii) : list ascii * list ascii :=
  match l with
  | c :: l' => if is_digit c then let '(ds, r) := span_digits l' in (c :: ds, r) else ([], l)
  | [] => ([], [])
  end.

(** A fraction [.d] or an exponent [e[+-]d] follows: the number is a float. *)
Definition float_tail (r : list ascii) : bool :=
  match r with
  | c :: r' =>
    (Ascii.eqb c "." && match r' with d :: _ => is_digit d | [] => false end)
    || ((Ascii.eqb c "e" || Ascii.eqb c "E")
        && match r' with
           | [] => false
           | [s] => is_digit s
           | s :: d :: _ => if Ascii.eqb s "+" || Ascii.eqb s "-" then is_digit d else is_digit s
           end)
  | [] => false
  end.

(** A number [-?(0|[1-9][0-9]* )]; a float is outside the model ([None]). *)
Definition p_number (l : list ascii) : option (json * list ascii) :=
  let '(neg, l1) := match l with
                    | c :: r => if Ascii.eqb c "-" then (true, r) else (false, l)
                    | [] => (false, l)
                    end in
  let finish ds r :=
    if float_tail r then None
    else Some (JInt ((if neg then -1 else 1) * int_of_digits (of_chars ds))%Z, r) in
  match l1 with
  | d :: r =>
    if Ascii.eqb d "0" then finish [d] r
    else if is_digit d then let '(ds, r') := span_digits r in finish (d :: ds) r'
    else None
  | [] => None
  end.

(** [dict(pairs)]: a repeated key keeps its first position and its last value. *)
Definition build_obj (kvs : list (string * json)) : list (string * json) :=
  fold_left (fun d kv => Dict.set String.eqb (fst kv) (snd kv) d) kvs [].

Fixpoint p_value (n : nat) (l : list ascii) {struct n} : option (json * list ascii) :=
  match n with
  | 0 => None
  | S n' =>
    match l with
    | [] => None
    | c :: r =>
      if Ascii.eqb c quote then option_map (fun p => (JStr (of_chars (fst p)), snd p)) (p_string r)
      else if Ascii.eqb c "{" then
        match skip_ws r with
        | c2 :: r2 =>
          if Ascii.eqb c2 "}" then Some (JObj [], r2)
          else if Ascii.eqb c2 quote then
            option_map (fun p => (JObj (build_obj (fst p)), snd p)) (p_members n' r2)
          else None
        | [] => None
        end
      else if Ascii.eqb c "[" then
        match skip_ws r with
        | c2 :: r2 =>
          if Ascii.eqb c2 "]" then Some (JList [], r2)
          else option_map (fun p => (JList (fst p), snd p)) (p_elems n' (c2 :: r2))
        | [] => None
        end
      else
        match strip_prefix (chars "null") l with
        | Some r' => Some (JNull, r')
        | None =>
          match strip_prefix (chars "true") l with
          | Some r' => Some (JBool true, r')
          | None =>
            match strip_prefix (chars "false") l with
            | Some r' => Some (JBool false, r')
            | None => p_number l
            end
          end
        end
    end
  end
with p_elems (n : nat) (l : list ascii) {struct n} : option (list json * list ascii) :=
  match n with
  | 0 => None
  | S n' =>
    match p_value n' l with
    | Some (v, r) =>
      match skip_ws r with
      | c :: r2 =>
        if Ascii.eqb c "," then option_map (fun p => (v :: fst p, snd p)) (p_elems n' (skip_ws r2))
        else if Ascii.eqb c "]" then Some ([v], r2)
        else None
      | [] => None
      end
    | None => None
    end
  end
with p_members (n : nat) (l : list ascii) {struct n} : option (list (string * json) * list ascii) :=
  match n with
  | 0 => None
  | S n' =>
    match p_string l with
    | Some (k, r) =>
      match skip_ws r with
      | c :: r2 =>
        if Ascii.eqb c ":" then
          match p_value n' (skip_ws r2) with
          | Some (v, r3) =>
            match skip_ws r3 with
            | c3 :: r4 =>
              if Ascii.eqb c3 "," then
                match skip_ws r4 with
                | c4 :: r5 =>
                  if Ascii.eqb c4 quote then
                    option_map (fun p => ((of_chars k, v) :: fst p, snd p)) (p_members n' r5)
                  else None
                | [] => None
                end
              else if Ascii.eqb c3 "}" then Some ([(of_chars k, v)], r4)
              else None
            | [] => None
            end
          | None => None
          end
        else None
      | [] => None
      end
    | None => None
    end
  end.

(** [json.loads(s)]: leading and trailing whitespace allowed, nothing else
    after the value.  Every step of the scanner consumes input, so the
    fuel [2 * len + 2] never runs out before the scanner stops. *)
Definition loads_l (s : list ascii) : option json :=
  let l := skip_ws s in
  match p_value (2 * List.length l + 2) l with
  | Some (v, r) => match skip_ws r with [] => Some v | _ => None end
  | None => None
  end.

(** The JSONL file [save_exam] writes: [json.dumps(question) + '\n'] per record. *)
Definition save_text (questions : list record) : list ascii :=
  flat_map (fun q => dumps_l (JObj q) ++ [nl]) questions.

(** Reading in text mode: universal newlines turn "\r\n" and "\r" into "\n";
    iterating the file gives the lines, each with its "\n". *)
Fixpoint univ_nl (l : list ascii) : list ascii :=
  match l with
  | c :: r =>
    if Ascii.eqb c "013" then
      match r with
      | d :: r' => if Ascii.eqb d nl then nl :: univ_nl r' else nl :: univ_nl r
      | [] => [nl]
      end
    else c :: univ_nl r
  | [] => []
  end.

Fixpoint split_lines (l : list ascii) (cur : list ascii) : list (list ascii) :=
  match l with
  | [] => match cur with [] => [] | _ => [rev cur] end
  | c :: l' => if Ascii.eqb c nl then rev (c :: cur) :: split_lines l' []
               else split_lines l' (c :: cur)
  end.

(** The loop of [load_exam]: blank lines skipped, every other line
    decoded; a line that does not decode raises. *)
Fixpoint load_lines (ls : list (list ascii)) : option (list json) :=
  match ls with
  | [] => Some []
  | line :: ls' =>
    if String.eqb (strip (of_chars line)) "" then load_lines ls'
    else match loads_l line with
         | Some v => option_map (cons v) (load_lines ls')
         | None => None
         end
  end.

Definition load_text (t : list ascii) : option (list json) :=
  load_lines (split_lines (univ_nl t) []).

(** Objects without a repeated key, at every depth: the dicts Python has. *)
Fixpoint nodup_keys (l : list string) : bool :=
  match l with
  | [] => true
  | k :: l' => negb (existsb (String.eqb k) l') && nodup_keys l'
  end.

Fixpoint wf (v : json) : bool :=
  match v with
  | JList l => (fix go (l : list json) : bool :=
                  match l with [] => true | x :: l' => wf x && go l' end) l
  | JObj kvs => nodup_keys (map fst kvs)
                && (fix go (kvs : list (string * json)) : bool :=
                      match kvs with [] => true | (_, x) :: l' => wf x && go l' end) kvs
  | _ => true
  end.

(** Where a value may end inside the output of [dumps] or of [save_exam]. *)
Definition delim (r : list ascii) : bool :=
  match r with
  | [] => true
  | c :: _ => Ascii.eqb c "," || Ascii.eqb c "]" || Ascii.eqb c "}" || Ascii.eqb c nl
  end.

Definition items_l : list json -> list ascii :=
  fix items (l : list json) : list ascii :=
    match l with
    | [] => []
    | x :: l' => match l' with
                 | [] => dumps_l x
                 | _ => dumps_l x ++ chars ", " ++ items l'
                 end
    end.

Definition items_kv : list (string * json) -> list ascii :=
  fix items (kvs : list (string * json)) : list ascii :=
    match kvs with
    | [] => []
    | (k, x) :: kvs' =>
      match kvs' with
      | [] => enc_str k ++ chars ": " ++ dumps_l x
      | _ => enc_str k ++ chars ": " ++ dumps_l x ++ chars ", " ++ items kvs'
      end
    end.

(** Nesting measure: the fuel the scanner spends on a value. *)
Fixpoint size (v : json) : nat :=
  match v with
  | JList l => S ((fix go (l : list json) : nat :=
                     match l with [] => 0 | x :: l' => S (size x + go l') end) l)
  | JObj kvs => S ((fix go (kvs : list (string * json)) : nat :=
                      match kvs with [] => 0 | (_, x) :: l' => S (size x + go l') end) kvs)
  | _ => 1
  end.

Definition size_l : list json -> nat :=
  fix go (l : list json) : nat := match l with [] => 0 | x :: l' => S (size x + go l') end.

Definition size_kv : list (string * json) -> nat :=
  fix go (kvs : list (string * json)) : nat :=
    match kvs with [] => 0 | (_, x) :: l' => S (size x + go l') end.

Definition wf_l : list json -> bool :=
  fix go (l : list json) : bool := match l with [] => true | x :: l' => wf x && go l' end.

Definition wf_kv : list (string * json) -> bool :=
  fix go (kvs : list (string * json)) : bool :=
    match kvs with [] => true | (_, x) :: l' => wf x && go l' end.

(** What follows a member [k: x] in the output of [dumps] of an object. *)
Definition kv_tail (kvs' : list (string * json)) (r : list ascii) : list ascii :=
  match kvs' with
  | [] => "}"%char :: r
  | _ => chars ", " ++ items_kv kvs' ++ "}"%char :: r
  end.

(** Printable ASCII (what [ensure_ascii] output is made of). *)
Definition printable (c : ascii) : bool := (32 <=? code c) && (code c <=? 126).

End Json.

Module App.
Import Py Json Storage.
Local Open Scope list_scope.

(** Last index of a character in a list, if any. *)
Fixpoint rfind_from (c : ascii) (l : list ascii) (i : nat) (acc : option nat) : option nat :=
  match l with
  | [] => acc
  | d :: l' => rfind_from c l' (S i) (if Ascii.eqb d c then Some i else acc)
  end.

Definition rfind (l : list ascii) (c : ascii) : option nat := rfind_from c l 0 None.

(** [os.path.splitext(p)[0]] (posixpath): the extension starts at the
    last dot after the last slash, unless everything between that slash
    and the dot is dots. *)
Definition splitext_root (p : string) : string :=
  let l := chars p in
  match rfind l "." with
  | Some dot =>
    let start := match rfind l "/" with Some sep => S sep | None => 0 end in
    if start <=? dot then
      if existsb (fun c => negb (Ascii.eqb c ".")) (firstn (dot - start) (skipn start l))
      then take p dot else p
    else p
  | None => p
  end.

(** One uploaded PDF: its file name and its pages. *)
Record upload := { up_name : string; up_pages : list Extract.page }.

(** The body of the loop over [uploaded_files] in [create_exam_page]:
    extract, clean, map images to pages, parse.  (The temporary PDF and
    the extracted image files are not part of the exam store.) *)
Definition process_upload (uploaded_file : upload) : list record :=
  let pdf_name := splitext_root (up_name uploaded_file) in
  let '(full_text, image_paths) :=
    Extract.extract_text_and_images pdf_name (up_pages uploaded_file) in
  let full_text := Extract.clean_text full_text in
  let images_by_page := Parse.map_images_to_pages full_text image_paths in
  Parse.parse_questions_from_text full_text (up_name uploaded_file) images_by_page.

(** [all_questions.extend(questions)] over all uploads. *)
Definition all_questions_of (uploaded_files : list upload) : list record :=
  flat_map process_upload uploaded_files.

(** Whether an uploaded PDF's first question block is non-blank: the
    cleaned text, split by [question_pattern] as in
    [parse_questions_from_text], has a first header, and the text after
    it (up to the next header) is not blank after [strip()]. *)
Definition first_block_nonblank (u : upload) : bool :=
  match Regex.split Regex.fM Parse.question_pattern
          (Extract.clean_text (fst (Extract.extract_text_and_images
                                      (splitext_root (up_name u)) (up_pages u)))) with
  | _ :: _ :: blk :: _ => negb (String.eqb (strip blk) "")
  | _ => false
  end.

(** [exam_exists] *)
Definition exam_exists (exam_name : string) : M bool :=
  fun st => (Some (bool_decide (is_Some (files st !! Paths.get_exam_file_path exam_name))), st).

(** "Save or append questions" in [create_exam_page]. *)
Definition create_exam (exam_name : string) (append_to_existing : bool)
    (uploaded_files : list upload) : M unit :=
  let all_questions := all_questions_of uploaded_files in
  let! ex := (if append_to_existing then exam_exists exam_name else ret false) in
  if ex then append_questions_to_exam exam_name all_questions
  else save_exam exam_name all_questions.

(** Pagination in [take_exam_page]: the page actually shown (an out of
    range page number is reset to 0) and its questions. *)
Definition total_pages (n questions_per_page : nat) : nat :=
  (n + questions_per_page - 1) / questions_per_page.

Definition page_view {A} (questions : list A) (questions_per_page current_page : nat)
    : nat * list A :=
  let total := total_pages (List.length questions) questions_per_page in
  let current_page := if total <=? current_page then 0 else current_page in
  let start_idx := current_page * questions_per_page in
  let end_idx := Nat.min (start_idx + questions_per_page) (List.length questions) in
  (current_page, firstn (end_idx - start_idx) (skipn start_idx questions)).

(** Python truthiness of a JSON value. *)
Definition truthy (v : json) : bool :=
  match v with
  | JNull => false
  | JBool b => b
  | JInt z => negb (Z.eqb z 0)
  | JStr s => negb (String.eqb s "")
  | JList l => negb (Nat.eqb (List.length l) 0)
  | JObj kvs => negb (Nat.eqb (List.length kvs) 0)
  end.

(** [q.get("web_recommended_answer") or q.get("pdf_answer")] *)
Definition correct_answer (question : record) : option json :=
  match Dict.get String.eqb "web_recommended_answer" question with
  | Some v => if truthy v then Some v else Dict.get String.eqb "pdf_answer" question
  | None => Dict.get String.eqb "pdf_answer" question
  end.

(** [str.upper()] of one code point 0..255, as code points. *)
Definition upper_cp (c : ascii) : list Z :=
  let n := code c in
  if (97 <=? n) && (n <=? 122) then [Z.of_nat n - 32]%Z
  else if (224 <=? n) && (n <=? 254) && negb (n =? 247) then [Z.of_nat n - 32]%Z
  else if n =? 181 then [924%Z]
  else if n =? 223 then [83; 83]%Z
  else if n =? 255 then [376%Z]
  else [Z.of_nat n].

Definition codes (l : list ascii) : list Z := map (fun c => Z.of_nat (code c)) l.

(** [s.replace(" ", "").upper()] *)
Definition normalize_str (s : string) : list Z :=
  flat_map upper_cp (List.filter (fun c => negb (Ascii.eqb c " ")) (chars s)).

(** The normalised form of an answer: [str] values as above, others by
    [str(x)] ([None] for lists and dicts, whose [str] is not modelled). *)
Definition normalize (v : option json) : option (list Z) :=
  match v with
  | Some (JStr s) => Some (normalize_str s)
  | None | Some JNull => Some (codes (chars "None"))
  | Some (JBool b) => Some (codes (chars (if b then "True" else "False")))
  | Some (JInt z) => Some (codes (int_repr z))
  | Some (JList _) | Some (JObj _) => None
  end.

(** [is_correct] for one question; the user's answer is a string (every
    widget stores one) or missing. *)
Definition is_correct (user_answer : option string) (question : record) : option bool :=
  match normalize (option_map JStr user_answer), normalize (correct_answer question) with
  | Some u, Some c => Some (bool_decide (u = c))
  | _, _ => None
  end.

(** [s.split(sep)] for a one-character separator. *)
Fixpoint split_l (sep : ascii) (l : list ascii) : list (list ascii) :=
  match l with
  | [] => [[]]
  | d :: l' =>
    let r := split_l sep l' in
    if Ascii.eqb d sep then [] :: r
    else match r with
         | x :: r' => (d :: x) :: r'
         | [] => [[d]]
         end
  end.

Definition split_sep (sep : ascii) (s : string) : list string :=
  map of_chars (split_l sep (chars s)).

(** [sorted(l)] on strings (insertion sort; equal strings are
    identical, so stability does not matter). *)
Fixpoint insert_sorted (x : string) (l : list string) : list string :=
  match l with
  | [] => [x]
  | y :: l' => if str_ltb (chars y) (chars x) then y :: insert_sorted x l' else x :: l
  end.

Fixpoint sorted (l : list string) : list string :=
  match l with
  | [] => []
  | x :: l' => insert_sorted x (sorted l')
  end.

(** The multiselect widget of [display_question]: the selection is
    stored as [",".join(sorted(answer))], and a stored string is turned
    back into the default selection by
    [[a.strip() for a in current_answer.split(",")]]. *)
Definition store_selection (answer : list string) : string := join "," (sorted answer).

Definition restore_selection (current_answer : string) : list string :=
  map strip (split_sep "," current_answer).

End App.

(* ------------------------------------------------------------------ *)
(** ** Shape of the parser's output *)
(* ------------------------------------------------------------------ *)

Module ParseOut.
Import Py Regex Parse.
Local Open Scope list_scope.

(** The keys of a parsed record, in the order [parse_questions_from_text] writes them. *)
Definition record_keys : list string :=
  ["question_id"; "pdf_question_number"; "source_pdf"; "page_number";
   "question_type"; "question"; "choices"; "pdf_answer";
   "web_recommended_answer"; "ai_recommended_answer"; "web_explanation";
   "ai_explanation"; "images"; "user_answer"].

(** The page number [map_images_to_pages] reads from an image file name. *)
Definition image_page (image_name : string) : option Z :=
  match search f0 "_page(\d+)_img\d+" image_name with
  | Some mr => Some (int_of_digits (group image_name mr 1))
  | None => None
  end.

(** The values [detect_question_type] returns. *)
Definition question_types : list string :=
  ["yes_no"; "multiple_choice_multiple"; "input_text"; "image_selection";
   "multiple_choice_single"].

End ParseOut.

(* ------------------------------------------------------------------ *)
(** ** Checks of the embedding on the spec's scenarios *)
(* ------------------------------------------------------------------ *)

Example py_int_of_digits : Py.int_of_digits "0175" = 175%Z.
Proof. reflexivity. Qed.
Example py_find : Py.find "xxabab" "ab" = Some 2.
Proof. reflexivity. Qed.
Example py_str_nat_42 : Py.str_nat 42 = "42".
Proof. reflexivity. Qed.

Example py_strip : Py.strip (" ab c" ++ Py.nl_str) = "ab c".
Proof. reflexivity. Qed.

Example re_parse_1 :
  Regex.parse_re "[^A-Z,]+$" =
  Some (Regex.Seq (Regex.Seq (Regex.Cls true [("A"%char, "Z"%char); (","%char, ","%char)])
                             (Regex.Star true (Regex.Cls true [("A"%char, "Z"%char); (","%char, ","%char)])))
                  Regex.Eol).
Proof. reflexivity. Qed.

Example re_sub_1 : Regex.sub Regex.f0 " +" " " "a   b  c" = "a b c".
Proof. vm_compute. reflexivity. Qed.

Example re_sub_lazy : Regex.sub Regex.fIS "x.*?(?:\(|$)" "" "ab xY(z x" = "ab z ".
Proof. vm_compute. reflexivity. Qed.

Example re_split_1 : Regex.split Regex.f0 "-(\d*)-" "a-1-b--c" = ["a"; "1"; "b"; ""; "c"].
Proof. vm_compute. reflexivity. Qed.

Example clean_text_ex1 :
  Extract.clean_text ("Exam AZ-104 Topic   1" ++ Py.nl_str ++ " www.examtopics.com  Page 3 of 9 ") = "Topic 1".
Proof. vm_compute. reflexivity. Qed.

Example detect_yes_no :
  Parse.detect_question_type "Select two answers" [("A", "Yes"); ("B", "No")] false = "yes_no".
Proof. vm_compute. reflexivity. Qed.

Example extract_choices_spec_scenario :
  Parse.extract_choices (String.concat Py.nl_str ["A. 3"; "B. 4"; "C. 5"; "Suggested Answer: B"; ""])
  = [("A", "3"); ("B", "4"); ("C", "5")].
Proof. vm_compute. reflexivity. Qed.

Example extract_choices_colon :
  Parse.extract_choices "A. Use a shared access signature: This grants time-limited access."
  = [("A", "Use a shared access signature")].
Proof. vm_compute. reflexivity. Qed.

Example extract_answer_ex :
  Parse.extract_answer (String.concat Py.nl_str ["x"; "Suggested Answer: B, D"; "y"]) "Suggested Answer"
  = Some "B,D".
Proof. vm_compute. reflexivity. Qed.

Example parse_spec_scenario :
  Parse.parse_questions_from_text
    (String.concat Py.nl_str ["Question 1"; "What is 2+2?"; "A. 3"; "B. 4"; "C. 5"; "Suggested Answer: B"; ""])
    "doc" []
  = [[("question_id", JInt 1); ("pdf_question_number", JStr "1"); ("source_pdf", JStr "doc");
      ("page_number", JInt 1); ("question_type", JStr "multiple_choice_single");
      ("question", JStr "What is 2+2?");
      ("choices", JObj [("A", JStr "3"); ("B", JStr "4"); ("C", JStr "5")]);
      ("pdf_answer", JStr "B"); ("web_recommended_answer", JStr "");
      ("ai_recommended_answer", JStr ""); ("web_explanation", JStr "");
      ("ai_explanation", JStr ""); ("images", JList []); ("user_answer", JNull)]].
Proof. vm_compute. reflexivity. Qed.

Example map_images_ex :
  Parse.map_images_to_pages "" ["d_page2_img1.png"; "d_page1_img1.png"; "d_page2_img2.jpeg"; "x.png"]
  = [(2%Z, ["d_page2_img1.png"; "d_page2_img2.jpeg"]); (1%Z, ["d_page1_img1.png"])].
Proof. vm_compute. reflexivity. Qed.

(* ------------------------------------------------------------------ *)
(** ** Storage: helper lemmas *)
(* ------------------------------------------------------------------ *)

Module StorageFacts.
Import Storage.

Lemma dict_get_set_eq (k : string) (v : json) (d : record) :
  Dict.get String.eqb k (Dict.set String.eqb k v d) = Some v.
Proof.
  induction d as [|[k' v'] d IH]; simpl.
  - by rewrite String.eqb_refl.
  - destruct (String.eqb k' k) eqn:E; simpl; rewrite ?E; [done|].
    exact IH.
Qed.

Lemma get_qid_or_0_set (v : json) (q : record) :
  get_qid_or_0 (Dict.set String.eqb "question_id" v q) = v.
Proof. unfold get_qid_or_0. by rewrite dict_get_set_eq. Qed.


Lemma find_index_None {A} (p : A -> bool) (l : list A) :
  find_index p l = None <-> (forall x, In x l -> p x = false).
Proof.
  induction l as [|x l IH]; simpl.
  - split; [intros _ y []|done].
  - destruct (p x) eqn:E; split.
    + discriminate.
    + intros H. rewrite (H x (or_introl eq_refl)) in E. discriminate.
    + intros H y [<-|Hy]; [done|].
      destruct (find_index p l); simpl in H; [discriminate|].
      by apply IH.
    + intros H. destruct IH as [_ IH2].
      rewrite IH2; [done|]. intros y Hy. apply H. by right.
Qed.

Lemma stored_save (st : fs) (n : string) (p : string) (qs : list record) :
  files (snd (save_exam n qs st)) !! p =
  if String.eqb (Paths.get_exam_file_path n) p then Some qs else files st !! p.
Proof.
  simpl. destruct (String.eqb (Paths.get_exam_file_path n) p) eqn:E.
  - apply String.eqb_eq in E. subst. apply lookup_insert_eq.
  - apply String.eqb_neq in E. by apply lookup_insert_ne.
Qed.


Lemma py_gt_num (a b : json) (x y : Z) :
  as_int a = Some x -> as_int b = Some y -> py_gt a b = Some (Z.gtb x y).
Proof.
  destruct a, b; simpl; intros Ha Hb; try discriminate;
    injection Ha as <-; injection Hb as <-; reflexivity.
Qed.

(** [>] only orders two numbers, two strings or two lists. *)
Lemma py_gt_kind (a b : json) (c : bool) :
  py_gt a b = Some c -> (is_Some (as_int a) <-> is_Some (as_int b)).
Proof.
  destruct a, b; simpl; intros H;
    first [ discriminate
          | split; intros [? Hx]; discriminate Hx
          | split; intros _; eexists; reflexivity ].
Qed.

(** Every item has the kind (number or not) of the result of [max]. *)
Lemma py_max_kind (v : json) (vs : list json) (m : json) :
  py_max_from v vs = Some m ->
  Forall (fun w => is_Some (as_int w) <-> is_Some (as_int m)) (v :: vs).
Proof.
  revert v; induction vs as [|item vs IH]; intros v H; simpl in H.
  - injection H as <-. constructor; [done|constructor].
  - destruct (py_gt item v) as [[|]|] eqn:E; [| |discriminate].
    + apply py_gt_kind in E. specialize (IH _ H).
      inversion IH as [|? ? Hi Hrest]; subst.
      constructor; [|constructor]; [|exact Hi|exact Hrest]. tauto.
    + apply py_gt_kind in E. specialize (IH _ H).
      inversion IH as [|? ? Hv Hrest]; subst.
      constructor; [exact Hv|constructor]; [|exact Hrest]. tauto.
Qed.

(** Over numbers, [max] is the largest of them. *)
Lemma py_max_num (v : json) (vs : list json) :
  Forall (fun w => is_Some (as_int w)) (v :: vs) ->
  exists m z, py_max_from v vs = Some m /\ as_int m = Some z /\ In m (v :: vs) /\
    Forall (fun w => exists z', as_int w = Some z' /\ (z' <= z)%Z) (v :: vs).
Proof.
  revert v; induction vs as [|item vs IH]; intros v Hall.
  - inversion Hall as [|? ? [x Hx] _]; subst.
    exists v, x. split; [done|]. split; [done|]. split; [by left|].
    constructor; [|constructor]. exists x. split; [done|lia].
  - inversion Hall as [|? ? [x Hx] Hrest]; subst.
    inversion Hrest as [|? ? [y Hy] Hrest']; subst.
    simpl. rewrite (py_gt_num _ _ _ _ Hy Hx).
    destruct (Z.gtb y x) eqn:E.
    + apply Z.gtb_lt in E.
      destruct (IH item Hrest) as (m & z & Hm & Hz & Hin & Hle).
      exists m, z. split; [done|]. split; [done|]. split; [by right|].
      inversion Hle as [|? ? (y' & Hy' & Hyz) _]; subst.
      rewrite Hy in Hy'. injection Hy' as <-.
      constructor; [|exact Hle]. exists x. split; [done|lia].
    + rewrite Z.gtb_ltb in E. apply Z.ltb_ge in E.
      assert (Hv : Forall (fun w => is_Some (as_int w)) (v :: vs)).
      { constructor; [by exists x|exact Hrest']. }
      destruct (IH v Hv) as (m & z & Hm & Hz & Hin & Hle).
      exists m, z. split; [done|]. split; [done|].
      split; [destruct Hin as [<-|Hin]; [by left|by right; right]|].
      inversion Hle as [|? ? (x' & Hx' & Hxz) Hle']; subst.
      rewrite Hx in Hx'. injection Hx' as <-.
      constructor; [exists x; split; [done|lia]|].
      constructor; [exists y; split; [done|lia]|exact Hle'].
Qed.

(** [max_id] when every stored id is a number: the largest stored id,
    or 0 for an empty collection. *)
Lemma max_id_of_num (existing : list record) (st : fs) :
  Forall (fun q => is_Some (as_int (get_qid_or_0 q))) existing ->
  exists m z, max_id_of existing st = (Some m, st) /\ as_int m = Some z /\
    Forall (fun q => exists z', as_int (get_qid_or_0 q) = Some z' /\ (z' <= z)%Z) existing /\
    (existing = [] -> z = 0%Z) /\
    (existing <> [] -> Exists (fun q => as_int (get_qid_or_0 q) = Some z) existing).
Proof.
  intros Hall. unfold max_id_of. destruct existing as [|q qs].
  - exists (JInt 0), 0%Z. simpl. repeat split; [constructor|]. by intros [].
  - assert (Hall' : Forall (fun w => is_Some (as_int w)) (map get_qid_or_0 (q :: qs)))
      by (rewrite List.Forall_map; exact Hall).
    simpl in Hall' |- *.
    destruct (py_max_num _ _ Hall') as (m & z & Hm & Hz & Hin & Hle).
    rewrite Hm. exists m, z. split; [done|]. split; [done|].
    split.
    { change (get_qid_or_0 q :: map get_qid_or_0 qs) with (map get_qid_or_0 (q :: qs)) in Hle.
      by rewrite List.Forall_map in Hle. }
    split; [discriminate|]. intros _.
    change (get_qid_or_0 q :: map get_qid_or_0 qs) with (map get_qid_or_0 (q :: qs)) in Hin.
    apply in_map_iff in Hin as (q' & <- & Hq'). apply List.Exists_exists. eauto.
Qed.

(** [max_id] when some stored id is not a number: [max] raises or gives
    a value that is not a number. *)
Lemma max_id_of_not_num (existing : list record) (st : fs) :
  Exists (fun q => as_int (get_qid_or_0 q) = None) existing ->
  max_id_of existing st = (None, st) \/
  exists m, max_id_of existing st = (Some m, st) /\ as_int m = None.
Proof.
  intros Hex. unfold max_id_of. destruct existing as [|q qs]; [inversion Hex|]. simpl.
  destruct (py_max_from (get_qid_or_0 q) (map get_qid_or_0 qs)) as [m|] eqn:Em; [right|by left].
  exists m. split; [done|].
  apply py_max_kind in Em.
  change (get_qid_or_0 q :: map get_qid_or_0 qs) with (map get_qid_or_0 (q :: qs)) in Em.
  rewrite List.Forall_map in Em.
  apply List.Exists_exists in Hex as (q' & Hin & Hq').
  rewrite List.Forall_forall in Em. specialize (Em q' Hin). rewrite Hq' in Em.
  destruct (as_int m) eqn:E; [|done].
  exfalso. destruct Em as [_ Em]. destruct Em as [? Hx]; [by eexists|discriminate].
Qed.

End StorageFacts.

(* ------------------------------------------------------------------ *)
(** ** Claims on the storage layer *)
(* ------------------------------------------------------------------ *)

Module StorageClaims.
Import Storage StorageFacts.

(** C8: when the stored collection of an exam holds 10 records whose
    question_ids are 1..10 (in any order), appending 3 new questions
    leaves those 10 records unchanged and in place, followed by the 3
    new records, in order, with question_ids 11, 12 and 13; no other
    file changes. *)
Theorem append_ten_then_three (st : fs) (exam_name : string)
    (existing : list record) (q1 q2 q3 : record) :
  files st !! Paths.get_exam_file_path exam_name = Some existing ->
  Permutation (map get_qid_or_0 existing) (map JInt [1; 2; 3; 4; 5; 6; 7; 8; 9; 10]%Z) ->
  let '(r, st') := append_questions_to_exam exam_name [q1; q2; q3] st in
  r = Some tt /\
  files st' !! Paths.get_exam_file_path exam_name =
    Some (existing ++ [Dict.set String.eqb "question_id" (JInt 11) q1;
                       Dict.set String.eqb "question_id" (JInt 12) q2;
                       Dict.set String.eqb "question_id" (JInt 13) q3])%list /\
  map get_qid_or_0 (skipn 10 (stored st' exam_name)) = [JInt 11; JInt 12; JInt 13] /\
  (forall p, p <> Paths.get_exam_file_path exam_name -> files st' !! p = files st !! p).
Proof.
  intros Hf Hids.
  assert (Hs : stored st exam_name = existing) by (unfold stored; by rewrite Hf).
  assert (Hlen : List.length existing = 10).
  { rewrite <- (length_map get_qid_or_0), (Permutation_length Hids). reflexivity. }
  assert (Hnum : Forall (fun q => is_Some (as_int (get_qid_or_0 q))) existing).
  { assert (H : Forall (fun w => is_Some (as_int w)) (map get_qid_or_0 existing)).
    { eapply Permutation_Forall; [symmetry; exact Hids|].
      repeat constructor; eexists; reflexivity. }
    by rewrite List.Forall_map in H. }
  destruct (max_id_of_num existing st Hnum) as (m & z & Hm & Hz & Hle & _ & Hex).
  assert (Hz10 : z = 10%Z).
  { assert (Hin10 : In (JInt 10) (map get_qid_or_0 existing))
      by (eapply Permutation_in; [symmetry; exact Hids|simpl; tauto]).
    apply in_map_iff in Hin10 as (q10 & Hq10 & Hin10).
    rewrite List.Forall_forall in Hle. destruct (Hle q10 Hin10) as (z' & Hz' & Hz'le).
    rewrite Hq10 in Hz'. injection Hz' as <-.
    assert (Hne : existing <> []) by (intros ->; discriminate).
    apply Hex in Hne. apply List.Exists_exists in Hne as (qz & Hinz & Hqz).
    assert (Hinz' : In (get_qid_or_0 qz) (map JInt [1; 2; 3; 4; 5; 6; 7; 8; 9; 10]%Z))
      by (eapply Permutation_in; [exact Hids|by apply in_map]).
    apply in_map_iff in Hinz' as (k & Hk & Hkin). rewrite <- Hk in Hqz.
    injection Hqz as ->. simpl in Hkin.
    repeat (destruct Hkin as [<-|Hkin]; [lia|]). destruct Hkin. }
  subst z.
  unfold append_questions_to_exam, bind, load_exam. rewrite Hs, Hm, Hz. simpl.
  split; [done|]. split; [by rewrite lookup_insert_eq|]. split.
  - unfold stored. simpl. rewrite lookup_insert_eq.
    rewrite skipn_app, skipn_all2 by lia. rewrite Hlen. simpl.
    by rewrite !get_qid_or_0_set.
  - intros p Hne. by apply lookup_insert_ne.
Qed.



(** C10: [update_exam_question] returns True exactly when some stored
    record's question_id equals the given id; otherwise it returns False
    and performs no write (the file system, write log included, is
    unchanged). It never raises. *)
Theorem update_true_iff_found (st : fs) (exam_name : string)
    (question_id : Z) (updated_question : record) :
  let '(r, st') := update_exam_question exam_name question_id updated_question st in
  (r = Some true <-> exists q, In q (stored st exam_name) /\ qid_matches question_id q = true) /\
  (r = Some true \/ (r = Some false /\ st' = st)).
Proof.
  unfold update_exam_question, bind, load_exam.
  destruct (find_index (qid_matches question_id) (stored st exam_name)) as [i|] eqn:E; simpl.
  - split; [|by left]. split; [|done]. intros _.
    destruct (find_index_None (qid_matches question_id) (stored st exam_name)) as [_ H].
    destruct (existsb (qid_matches question_id) (stored st exam_name)) eqn:Ex.
    + apply existsb_exists in Ex. exact Ex.
    + exfalso. assert (Hn : find_index (qid_matches question_id) (stored st exam_name) = None).
      { apply H. intros x Hx. destruct (qid_matches question_id x) eqn:Hq; [|done].
        assert (existsb (qid_matches question_id) (stored st exam_name) = true)
          by (apply existsb_exists; eauto). congruence. }
      congruence.
  - split; [|by right]. split; [discriminate|].
    intros [q [Hq Hm]]. apply find_index_None with (x := q) in E; [congruence|done].
Qed.

End StorageClaims.

(* ------------------------------------------------------------------ *)
(** ** Claim on the question-type classifier *)
(* ------------------------------------------------------------------ *)

Module TypeClaims.
Import Parse.

(** C4: a stem containing (case-insensitively) a multi-select cue and a
    drag/ordering/hotspot cue, with choices outside the yes/no case of
    rule 1, is classified multiple_choice_multiple whatever the image
    flag: rule 2 is tried before rule 3. *)
Theorem multi_cue_precedes_drag_cue (question_stem : string)
    (choices : Dict.dict string string) (has_image : bool) (kw dkw : string) :
  In kw multi_keywords -> Py.contains (Py.lower question_stem) kw = true ->
  In dkw drag_keywords -> Py.contains (Py.lower question_stem) dkw = true ->
  ~ (List.length choices = 2 /\
     Py.contains (Py.lower (Py.join " " (map snd choices))) "yes" = true /\
     Py.contains (Py.lower (Py.join " " (map snd choices))) "no" = true) ->
  detect_question_type question_stem choices has_image = "multiple_choice_multiple".
Proof.
  intros Hkw Hc _ _ Hyn. unfold detect_question_type.
  destruct ((List.length choices =? 2)
            && Py.contains (Py.lower (Py.join " " (map snd choices))) "yes"
            && Py.contains (Py.lower (Py.join " " (map snd choices))) "no") eqn:E.
  - exfalso. apply Hyn. apply andb_true_iff in E as [E E3].
    apply andb_true_iff in E as [E1 E2]. apply Nat.eqb_eq in E1. auto.
  - assert (existsb (Py.contains (Py.lower question_stem)) multi_keywords = true) as ->
      by (apply existsb_exists; eauto).
    reflexivity.
Qed.

End TypeClaims.

(* ------------------------------------------------------------------ *)
(** ** Claims on the parser, at concrete inputs *)
(* ------------------------------------------------------------------ *)

Module ParserCases.
Import Py Extract Parse.

(** C1 (code bug): a page with one embedded image, one drawing image and
    a large rendered page gives three file names; the image mapper keeps
    only the [_img] one and drops [doc_page1_drawing1.png] and
    [doc_page1_fullpage.png]. *)
Theorem mapper_drops_drawing_and_fullpage :
  let pages := [{| pg_text := "Question 1";
                   pg_images := [(5%Z, Some "png")];
                   pg_drawings := [[(true, 7%Z, Some "png")]];
                   pg_pixmap := Some (612, 792) |}] in
  let '(full_text, image_paths) := extract_text_and_images "doc" pages in
  image_paths = ["doc_page1_img1.png"; "doc_page1_drawing1.png"; "doc_page1_fullpage.png"] /\
  map_images_to_pages full_text image_paths = [(1%Z, ["doc_page1_img1.png"])].
Proof. vm_compute. split; reflexivity. Qed.

(** C2 (as stated, refuted): the option letters are taken as printed. A
    region whose only option is "B." yields the key set {B}, without
    "A"; a region with options A and C yields {A, C}, with a gap. *)
Lemma choice_keys_not_from_A :
  Dict.keys (extract_choices "B. x") = ["B"] /\
  ~ In "A" (Dict.keys (extract_choices "B. x")) /\
  Dict.keys (extract_choices (String.concat nl_str ["A. x"; "C. y"])) = ["A"; "C"] /\
  ~ In "B" (Dict.keys (extract_choices (String.concat nl_str ["A. x"; "C. y"]))).
Proof.
  vm_compute. split; [reflexivity|]. split; [intros [H|[]]; discriminate|].
  split; [reflexivity|]. intros [H|[H|[]]]; discriminate.
Qed.

(** C3 (code bug): an option whose whole text is boilerplate is stored as
    the empty string: the matched text "ExamTopics" is removed by the
    footer pattern and no fallback restores it. *)
Theorem empty_choice_is_stored :
  map (fun mr => Regex.group "A. ExamTopics" mr 2) (Regex.finditer Regex.fMS choice_pattern "A. ExamTopics")
    = ["ExamTopics"] /\
  extract_choices "A. ExamTopics" = [("A", "")].
Proof. vm_compute. split; reflexivity. Qed.

(** C5 (code bug): on the text the extractor builds for two pages, the
    first ending with a line "ExamTopics - Expert Verified", the footer
    pattern [ExamTopics.*?(?:\(|\d+ of \d+|$)] (DOTALL, so [.] crosses
    lines and [$] is only the end of the text) deletes everything to the
    end, the "--- PAGE 2 ---" marker included. *)
Theorem clean_text_drops_page_marker :
  let pages := [{| pg_text := String.concat nl_str
                                ["Question 1"; "What is 2+2?"; "ExamTopics - Expert Verified"; ""];
                   pg_images := []; pg_drawings := []; pg_pixmap := None |};
                {| pg_text := String.concat nl_str ["A. 3"; "B. 4"; ""];
                   pg_images := []; pg_drawings := []; pg_pixmap := None |}] in
  let full_text := fst (extract_text_and_images "doc" pages) in
  contains full_text "--- PAGE 2 ---" = true /\
  contains (clean_text full_text) "--- PAGE 2 ---" = false /\
  clean_text full_text = String.concat nl_str ["--- PAGE 1 ---"; "Question 1"; "What is 2+2?"].
Proof. vm_compute. repeat split; reflexivity. Qed.

(** C6 (as stated, refuted): "Page 1  of 2" (two spaces) escapes the
    page-stamp pattern on the first pass, becomes "Page 1 of 2" when
    spaces are collapsed, and is removed by the second pass. *)
Lemma clean_text_not_idempotent :
  clean_text "Page 1  of 2" = "Page 1 of 2" /\
  clean_text (clean_text "Page 1  of 2") = "" /\
  clean_text (clean_text "Page 1  of 2") <> clean_text "Page 1  of 2".
Proof. vm_compute. split; [reflexivity|]. split; [reflexivity|]. discriminate. Qed.

(** C7 (code bug): the marker loop stops at the first marker of its list
    that occurs, not at the earliest occurrence: with "Community Answer"
    before "Suggested Answer:", the stem keeps "Community Answer: B".  The
    label "Suggested Answer" without a colon, which [extract_answer]
    accepts, is not a stem marker at all. *)
Theorem stem_keeps_answer_text :
  let t1 := String.concat nl_str ["Question 1"; "What?"; "Community Answer: B"; "Suggested Answer: A"; ""] in
  let t2 := String.concat nl_str ["Question 1"; "What?"; "Suggested Answer B"; ""] in
  map (Dict.get String.eqb "question") (parse_questions_from_text t1 "doc" [])
    = [Some (JStr (String.concat nl_str ["What?"; "Community Answer: B"]))] /\
  map (Dict.get String.eqb "web_recommended_answer") (parse_questions_from_text t1 "doc" [])
    = [Some (JStr "B")] /\
  map (Dict.get String.eqb "question") (parse_questions_from_text t2 "doc" [])
    = [Some (JStr (String.concat nl_str ["What?"; "Suggested Answer B"]))] /\
  map (Dict.get String.eqb "pdf_answer") (parse_questions_from_text t2 "doc" [])
    = [Some (JStr "B")].
Proof. vm_compute. repeat split; reflexivity. Qed.

End ParserCases.

(* ------------------------------------------------------------------ *)
(** ** Witnesses: the hypotheses of the claim theorems are satisfiable *)
(* ------------------------------------------------------------------ *)

Module Witnesses.
Import Storage.

Lemma append_ten_then_three_witness :
  let existing := map (fun n => [("question_id", JInt n); ("question", JStr "q")])
                      [2; 1; 3; 4; 5; 6; 7; 8; 9; 10]%Z in
  let st := {| files := {[ Paths.get_exam_file_path "exam" := existing ]}; writes := [] |} in
  let q := [("question_id", JInt 1); ("question", JStr "new")] in
  files st !! Paths.get_exam_file_path "exam" = Some existing /\
  Permutation (map get_qid_or_0 existing) (map JInt [1; 2; 3; 4; 5; 6; 7; 8; 9; 10]%Z) /\
  let '(r, st') := append_questions_to_exam "exam" [q; q; q] st in
  r = Some tt /\
  files st' !! Paths.get_exam_file_path "exam" =
    Some (existing ++ [Dict.set String.eqb "question_id" (JInt 11) q;
                       Dict.set String.eqb "question_id" (JInt 12) q;
                       Dict.set String.eqb "question_id" (JInt 13) q])%list /\
  map get_qid_or_0 (skipn 10 (stored st' "exam")) = [JInt 11; JInt 12; JInt 13] /\
  (forall p, p <> Paths.get_exam_file_path "exam" -> files st' !! p = files st !! p).
Proof.
  intros existing st q.
  assert (H1 : files st !! Paths.get_exam_file_path "exam" = Some existing)
    by (vm_compute; reflexivity).
  assert (H2 : Permutation (map get_qid_or_0 existing)
                 (map JInt [1; 2; 3; 4; 5; 6; 7; 8; 9; 10]%Z))
    by (cbn; apply perm_swap).
  split; [exact H1|]. split; [exact H2|].
  apply (StorageClaims.append_ten_then_three st "exam" existing q q q H1 H2).
Defined.


Lemma multi_cue_precedes_drag_cue_witness :
  In "select two" Parse.multi_keywords /\
  Py.contains (Py.lower "Select two steps and drag them") "select two" = true /\
  In "drag" Parse.drag_keywords /\
  Py.contains (Py.lower "Select two steps and drag them") "drag" = true /\
  ~ (List.length [("A", "Yes"); ("B", "No"); ("C", "Maybe")] = 2 /\
     Py.contains (Py.lower (Py.join " " (map snd [("A", "Yes"); ("B", "No"); ("C", "Maybe")]))) "yes" = true /\
     Py.contains (Py.lower (Py.join " " (map snd [("A", "Yes"); ("B", "No"); ("C", "Maybe")]))) "no" = true) /\
  Parse.detect_question_type "Select two steps and drag them"
    [("A", "Yes"); ("B", "No"); ("C", "Maybe")] true = "multiple_choice_multiple".
Proof.
  assert (Hn : ~ (List.length [("A", "Yes"); ("B", "No"); ("C", "Maybe")] = 2 /\
     Py.contains (Py.lower (Py.join " " (map snd [("A", "Yes"); ("B", "No"); ("C", "Maybe")]))) "yes" = true /\
     Py.contains (Py.lower (Py.join " " (map snd [("A", "Yes"); ("B", "No"); ("C", "Maybe")]))) "no" = true))
    by (simpl; intros [H _]; discriminate).
  split; [simpl; tauto|]. split; [vm_compute; reflexivity|].
  split; [simpl; tauto|]. split; [vm_compute; reflexivity|]. split; [exact Hn|].
  apply (TypeClaims.multi_cue_precedes_drag_cue _ _ _ "select two" "drag");
    [simpl; tauto | vm_compute; reflexivity | simpl; tauto | vm_compute; reflexivity | exact Hn].
Defined.

End Witnesses.

(* ------------------------------------------------------------------ *)
(** ** The matcher is sound for the relational semantics; consequences
    for [clean_text] and [extract_choices] *)
(* ------------------------------------------------------------------ *)

Module RegexFacts.
Import Py Regex.
Local Open Scope list_scope.

Section Soundness.
Variable fl : flags.
Variable s : list ascii.

Lemma star_loop_sound (r1 : re) (mr : nat -> caps -> cont -> option (nat * caps))
    (g : bool) (k : cont) :
  (forall i c k' res, mr i c k' = Some res ->
     exists j c', Sem fl s r1 i c j c' /\ k' j c' = Some res) ->
  forall n i c res, star_loop mr g k n i c = Some res ->
  exists j c', Sem fl s (Star g r1) i c j c' /\ k j c' = Some res.
Proof.
  intros Hmr n. induction n as [|n IH]; intros i c res H; simpl in H; [discriminate|].
  destruct g.
  - destruct (mr i c _) as [x|] eqn:E.
    + injection H as <-. apply Hmr in E as (j & c1 & Hs & Hk).
      destruct (i <? j) eqn:Hij; [|discriminate]. apply Nat.ltb_lt in Hij.
      apply IH in Hk as (j2 & c2 & Hs2 & Hk2).
      exists j2, c2. split; [eapply Sem_star1; eauto | exact Hk2].
    + exists i, c. split; [constructor | exact H].
  - destruct (k i c) as [x|] eqn:E.
    + injection H as <-. exists i, c. split; [constructor | exact E].
    + apply Hmr in H as (j & c1 & Hs & Hk).
      destruct (i <? j) eqn:Hij; [|discriminate]. apply Nat.ltb_lt in Hij.
      apply IH in Hk as (j2 & c2 & Hs2 & Hk2).
      exists j2, c2. split; [eapply Sem_star1; eauto | exact Hk2].
Qed.

Lemma m_sound (r : re) : forall i c k res, m fl s r i c k = Some res ->
  exists j c', Sem fl s r i c j c' /\ k j c' = Some res.
Proof.
  induction r as [| a | neg rs | | r1 IH1 r2 IH2 | r1 IH1 r2 IH2 | g r1 IH1 | n r1 IH1
                  | | | | r1 IH1]; intros i c k res H; simpl in H.
  - exists i, c. split; [constructor | exact H].
  - destruct (char_at s i) as [d|] eqn:E; [|discriminate].
    destruct (chr_ok fl a d) eqn:E2; [|discriminate].
    exists (S i), c. split; [econstructor; eauto | exact H].
  - destruct (char_at s i) as [d|] eqn:E; [|discriminate].
    destruct (cls_ok fl neg rs d) eqn:E2; [|discriminate].
    exists (S i), c. split; [econstructor; eauto | exact H].
  - destruct (char_at s i) as [d|] eqn:E; [|discriminate].
    destruct (any_ok fl d) eqn:E2; [|discriminate].
    exists (S i), c. split; [econstructor; eauto | exact H].
  - apply IH1 in H as (j & c1 & H1 & H2). apply IH2 in H2 as (j2 & c2 & H3 & H4).
    exists j2, c2. split; [econstructor; eauto | exact H4].
  - destruct (m fl s r1 i c k) as [x|] eqn:E.
    + injection H as <-. apply IH1 in E as (j & c1 & H1 & H2).
      exists j, c1. split; [apply Sem_altl; exact H1 | exact H2].
    + apply IH2 in H as (j & c1 & H1 & H2).
      exists j, c1. split; [apply Sem_altr; exact H1 | exact H2].
  - change (star_loop (m fl s r1) g k (S (List.length s - i)) i c = Some res) in H.
    eapply star_loop_sound; [exact IH1 | exact H].
  - apply IH1 in H as (j & c1 & H1 & H2).
    exists j, (set_cap n (i, j) c1). split; [constructor; exact H1 | exact H2].
  - destruct (bol_ok fl s i) eqn:E; [|discriminate].
    exists i, c. split; [constructor; exact E | exact H].
  - destruct (eol_ok fl s i) eqn:E; [|discriminate].
    exists i, c. split; [constructor; exact E | exact H].
  - destruct (i =? List.length s) eqn:E; [|discriminate].
    apply Nat.eqb_eq in E. exists i, c. split; [constructor; exact E | exact H].
  - destruct (m fl s r1 i c (fun j c' => Some (j, c'))) as [[j c1]|] eqn:E; [|discriminate].
    apply IH1 in E as (j2 & c2 & H1 & H2). injection H2 as <- <-.
    exists i, c2. split; [econstructor; eauto | exact H].
Qed.

Lemma Sem_le r i c j c' : Sem fl s r i c j c' -> i <= j.
Proof. induction 1; lia. Qed.

Lemma match_at_sound r a ma j c :
  match_at fl s r a ma = Some (j, c) -> Sem fl s r a [] j c.
Proof.
  unfold match_at. intros H. apply m_sound in H as (j' & c' & H1 & H2).
  destruct (ma && (j' =? a)); [discriminate|]. injection H2 as <- <-. exact H1.
Qed.

Lemma search_from_sound r n a ma mr :
  search_from fl s r n a ma = Some mr ->
  a <= m_start mr /\ Sem fl s r (m_start mr) [] (m_end mr) (m_caps mr).
Proof.
  revert a ma. induction n as [|n IH]; intros a ma H; simpl in H; [discriminate|].
  destruct (match_at fl s r a ma) as [[j c]|] eqn:E.
  - injection H as <-. simpl. split; [lia | eapply match_at_sound; exact E].
  - apply IH in H as [H1 H2]. split; [lia | exact H2].
Qed.

Lemma iter_from_chain r n pos ma : chain_ok fl s r pos (iter_from fl s r n pos ma).
Proof.
  revert pos ma. induction n as [|n IH]; intros pos ma; simpl; [exact I|].
  unfold search_at. destruct (search_from fl s r _ pos ma) as [mr|] eqn:E; simpl; [|exact I].
  apply search_from_sound in E as [H1 H2].
  split; [exact H1|]. split; [eapply Sem_le; exact H2|]. split; [exact H2 | apply IH].
Qed.

Lemma skipn_lslice last a : last <= a -> skipn last s = lslice s last a ++ skipn a s.
Proof.
  intros H. unfold lslice.
  rewrite <- (firstn_skipn (a - last) (skipn last s)) at 1.
  rewrite skipn_skipn. replace (a - last + last) with a by lia. reflexivity.
Qed.

Lemma firstn_add {A} (a b : nat) (l : list A) :
  firstn (a + b) l = firstn a l ++ firstn b (skipn a l).
Proof.
  revert l. induction a as [|a IH]; intros [|x l]; simpl; try reflexivity.
  - rewrite firstn_nil. reflexivity.
  - rewrite IH. reflexivity.
Qed.

Lemma lslice_split i j k : i <= j -> j <= k -> lslice s i k = lslice s i j ++ lslice s j k.
Proof.
  intros H1 H2. unfold lslice.
  replace (k - i) with ((j - i) + (k - j)) by lia.
  rewrite firstn_add, skipn_skipn. replace (j - i + i) with j by lia. reflexivity.
Qed.

Lemma lslice_one i d : char_at s i = Some d -> lslice s i (S i) = [d].
Proof.
  unfold lslice, char_at. replace (S i - i) with 1 by lia.
  generalize s. clear. induction i as [|i IH]; intros [|x l] H; simpl in *; try discriminate.
  - injection H as ->. reflexivity.
  - apply IH. exact H.
Qed.

Lemma must_sound r i c j c' : icase fl = false -> Sem fl s r i c j c' ->
  must r `sublist_of` lslice s i j.
Proof.
  intros Hic H. induction H; simpl; try apply sublist_nil_l.
  - rewrite (lslice_one i d H). unfold chr_ok in H0. rewrite Hic, orb_false_r in H0.
    apply Ascii.eqb_eq in H0. subst. reflexivity.
  - rewrite (lslice_split i j k) by (eapply Sem_le; eauto).
    apply sublist_app; assumption.
  - exact IHSem.
Qed.

Lemma sub_pieces_sublist r repl ms last :
  (forall a c b c', Sem fl s r a c b c' -> repl `sublist_of` lslice s a b) ->
  chain_ok fl s r last ms -> sub_pieces s repl ms last `sublist_of` skipn last s.
Proof.
  intros Hrep. revert last. induction ms as [|mr ms IH]; intros last H; simpl; [reflexivity|].
  destruct H as (H1 & H2 & H3 & H4).
  rewrite (skipn_lslice last (m_start mr)) by exact H1.
  rewrite (skipn_lslice (m_start mr) (m_end mr)) by exact H2.
  apply sublist_app; [reflexivity|]. apply sublist_app; [eapply Hrep; exact H3 | apply IH; exact H4].
Qed.

End Soundness.

Lemma chars_of_chars l : chars (of_chars l) = l.
Proof. apply list_ascii_of_string_of_list_ascii. Qed.

Lemma sub_sublist fl p repl t :
  (forall a c b c', Sem fl (chars t) (pat p) a c b c' ->
     chars repl `sublist_of` lslice (chars t) a b) ->
  chars (sub fl p repl t) `sublist_of` chars t.
Proof.
  intros Hrep. unfold sub. rewrite chars_of_chars.
  change (chars t) with (skipn 0 (chars t)) at 2.
  eapply sub_pieces_sublist; [exact Hrep | apply iter_from_chain].
Qed.

Lemma sub_delete_sublist fl p t : chars (sub fl p "" t) `sublist_of` chars t.
Proof. apply sub_sublist. intros. apply sublist_nil_l. Qed.

Lemma sub_must_sublist fl p repl t :
  icase fl = false -> chars repl `sublist_of` must (pat p) ->
  chars (sub fl p repl t) `sublist_of` chars t.
Proof.
  intros Hic Hm. apply sub_sublist. intros a c b c' H.
  etrans; [exact Hm | eapply must_sound; eauto].
Qed.

Lemma sublist_rev {A} (l1 l2 : list A) : l1 `sublist_of` l2 -> rev l1 `sublist_of` rev l2.
Proof.
  induction 1; simpl.
  - reflexivity.
  - apply sublist_app; [assumption | reflexivity].
  - apply sublist_inserts_r. assumption.
Qed.

Lemma lstrip_l_sublist p l : lstrip_l p l `sublist_of` l.
Proof.
  induction l as [|x l IH]; simpl; [reflexivity|].
  destruct (p x); [apply sublist_cons; exact IH | reflexivity].
Qed.

Lemma rstrip_l_sublist p l : rstrip_l p l `sublist_of` l.
Proof.
  unfold rstrip_l. rewrite <- (rev_involutive l) at 2.
  apply sublist_rev, lstrip_l_sublist.
Qed.

Lemma strip_sublist t : chars (strip t) `sublist_of` chars t.
Proof.
  unfold strip. rewrite chars_of_chars.
  etrans; [apply rstrip_l_sublist | apply lstrip_l_sublist].
Qed.

Ltac peel_pass :=
  first [ etrans; [apply strip_sublist|]
        | etrans; [apply sub_delete_sublist|]
        | etrans; [apply sub_must_sublist; [reflexivity | vm_compute; repeat constructor]|] ].

Lemma clean_text_sublist t : chars (Extract.clean_text t) `sublist_of` chars t.
Proof. unfold Extract.clean_text. cbv zeta. repeat peel_pass. reflexivity. Qed.

End RegexFacts.

Module ChoiceFacts.
Import Py Regex RegexFacts.
Local Open Scope list_scope.

Lemma get_cap_set_other n n' v c : n' <> n -> get_cap n (set_cap n' v c) = get_cap n c.
Proof.
  intros Hne. unfold set_cap. simpl.
  destruct (n' =? n) eqn:E; [apply Nat.eqb_eq in E; congruence|].
  clear v E. induction c as [|[k v] c IH]; [reflexivity|].
  unfold filter; simpl. case_decide as Hd; simpl.
  - destruct (k =? n); [reflexivity | exact IH].
  - destruct (k =? n') eqn:E1; [|simpl in Hd; tauto].
    apply Nat.eqb_eq in E1. subst k.
    destruct (n' =? n) eqn:E2; [apply Nat.eqb_eq in E2; congruence | exact IH].
Qed.

Lemma get_cap_set_same n v c : get_cap n (set_cap n v c) = Some v.
Proof. unfold set_cap. simpl. rewrite Nat.eqb_refl. reflexivity. Qed.

Lemma Sem_caps_other fl s r i c j c' n :
  Sem fl s r i c j c' -> ~ In n (groups r) -> get_cap n c' = get_cap n c.
Proof.
  induction 1; intros Hn; simpl in Hn; try reflexivity.
  - rewrite IHSem2, IHSem1; [reflexivity| |]; intros Hin; apply Hn; apply in_or_app; auto.
  - apply IHSem. intros Hin; apply Hn; apply in_or_app; auto.
  - apply IHSem. intros Hin; apply Hn; apply in_or_app; auto.
  - rewrite IHSem2, IHSem1; [reflexivity | exact Hn | exact Hn].
  - rewrite get_cap_set_other by (intros ->; apply Hn; left; reflexivity).
    apply IHSem. intros Hin; apply Hn; right; exact Hin.
  - apply IHSem. exact Hn.
Qed.

Lemma chain_In fl s r last ms mr :
  chain_ok fl s r last ms -> In mr ms -> Sem fl s r (m_start mr) [] (m_end mr) (m_caps mr).
Proof.
  revert last. induction ms as [|mr' ms IH]; intros last H Hin; [destruct Hin|].
  destruct H as (_ & _ & H3 & H4). destruct Hin as [<-|Hin]; [exact H3 | eapply IH; eauto].
Qed.

Lemma chain_starts_increase fl s r last ms :
  (forall i c j c', Sem fl s r i c j c' -> i < j) ->
  chain_ok fl s r last ms ->
  forall n mr1 mr2, ms !! n = Some mr1 -> ms !! S n = Some mr2 -> m_start mr1 < m_start mr2.
Proof.
  intros Hne. revert last. induction ms as [|mr ms IH]; intros last H n mr1 mr2 H1 H2; [discriminate|].
  destruct H as (_ & _ & H3 & H4). destruct n as [|n].
  - simpl in H1. injection H1 as <-. destruct ms as [|mr' ms]; [discriminate|].
    simpl in H2. injection H2 as <-. destruct H4 as (H5 & _).
    apply Hne in H3. lia.
  - simpl in H1, H2. eapply IH; eauto.
Qed.

Lemma choice_pattern_shape : exists rest,
  pat Parse.choice_pattern = Seq Bol (Seq (Group 1 (Cls false [("A"%char, "Z"%char)])) rest)
  /\ ~ In 1 (groups rest).
Proof.
  eexists. split; [vm_compute; reflexivity|].
  vm_compute. intros H. repeat (destruct H as [H|H]; [discriminate|]). exact H.
Qed.

Section Inversion.
Variable fl : flags.
Variable s : list ascii.

Lemma Sem_seq_inv r1 r2 i c k c2 : Sem fl s (Seq r1 r2) i c k c2 ->
  exists j c1, Sem fl s r1 i c j c1 /\ Sem fl s r2 j c1 k c2.
Proof. intros H. inversion H; subst. eauto. Qed.

Lemma Sem_bol_inv i c j c' : Sem fl s Bol i c j c' -> j = i /\ c' = c.
Proof. intros H. inversion H; subst. auto. Qed.

Lemma Sem_group_inv n r i c j c' : Sem fl s (Group n r) i c j c' ->
  exists c1, Sem fl s r i c j c1 /\ c' = set_cap n (i, j) c1.
Proof. intros H. inversion H; subst. eauto. Qed.

Lemma Sem_cls_inv neg rs i c j c' : Sem fl s (Cls neg rs) i c j c' ->
  j = S i /\ c' = c /\ exists d, char_at s i = Some d /\ cls_ok fl neg rs d = true.
Proof. intros H. inversion H; subst. eauto. Qed.

End Inversion.

Lemma choice_match_letter s a c0 j c :
  Sem fMS s (pat Parse.choice_pattern) a c0 j c ->
  a < j /\ exists d, char_at s a = Some d /\ 65 <= nat_of_ascii d <= 90
                     /\ get_cap 1 c = Some (a, S a).
Proof.
  destruct choice_pattern_shape as (rest & -> & Hn). intros H.
  apply Sem_seq_inv in H as (j1 & c1 & Hb & H). apply Sem_bol_inv in Hb as [-> ->].
  apply Sem_seq_inv in H as (j2 & c2 & Hg & Hr). apply Sem_group_inv in Hg as (c3 & Hc & ->).
  apply Sem_cls_inv in Hc as (-> & -> & d & Hd & Hok).
  split; [apply Sem_le in Hr; lia|].
  exists d. split; [exact Hd|]. split.
  - unfold cls_ok, in_ranges in Hok. cbn [existsb fst snd xorb icase fMS andb orb] in Hok.
    rewrite !orb_false_r in Hok.
    apply Bool.andb_true_iff in Hok as [E1 E2]. apply Nat.leb_le in E1. apply Nat.leb_le in E2. unfold code in E1, E2.
    change (nat_of_ascii "A") with 65 in E1. change (nat_of_ascii "Z") with 90 in E2. lia.
  - rewrite (Sem_caps_other _ _ _ _ _ _ _ 1 Hr Hn). apply get_cap_set_same.
Qed.

Lemma substring_one t a d : nth_error (chars t) a = Some d -> String.substring a 1 t = String d "".
Proof.
  revert a. induction t as [|x t IH]; intros a H; [destruct a; discriminate|].
  destruct a as [|a]; simpl in H |- *.
  - injection H as <-. destruct t; reflexivity.
  - apply IH. exact H.
Qed.

Lemma finditer_chain fl p t : chain_ok fl (chars t) (pat p) 0 (finditer fl p t).
Proof. apply iter_from_chain. Qed.

Lemma keys_set (k : string) (v : string) (d : Dict.dict string string) :
  Dict.keys (Dict.set String.eqb k v d) = Dict.add_key String.eqb (Dict.keys d) k.
Proof.
  unfold Dict.add_key. induction d as [|[k' v'] d IH]; simpl; [reflexivity|].
  rewrite (String.eqb_sym k k'). destruct (String.eqb k' k) eqn:E; simpl; [reflexivity|].
  rewrite IH. destruct (existsb _ _); reflexivity.
Qed.

Lemma keys_fold {A} (f : A -> string) (g : A -> string) ms d :
  Dict.keys (fold_left (fun ch x => Dict.set String.eqb (f x) (g x) ch) ms d)
  = fold_left (Dict.add_key String.eqb) (map f ms) (Dict.keys d).
Proof.
  revert d. induction ms as [|x ms IH]; intros d; simpl; [reflexivity|].
  rewrite IH, keys_set. reflexivity.
Qed.

Lemma add_key_NoDup ks k : NoDup ks -> NoDup (Dict.add_key String.eqb ks k).
Proof.
  unfold Dict.add_key. intros H. destruct (existsb (String.eqb k) ks) eqn:E; [exact H|].
  apply NoDup_app. split; [exact H|]. split; [|apply NoDup_singleton].
  intros x Hx Hk. apply list_elem_of_singleton in Hk. subst x.
  apply list_elem_of_In in Hx.
  assert (existsb (String.eqb k) ks = true) as E'
    by (apply existsb_exists; exists k; split; [exact Hx | apply String.eqb_refl]).
  congruence.
Qed.

Lemma add_key_elem ks k x : x ∈ Dict.add_key String.eqb ks k -> x ∈ ks \/ x = k.
Proof.
  unfold Dict.add_key. destruct (existsb _ _); [auto|].
  rewrite elem_of_app, list_elem_of_singleton. tauto.
Qed.

Lemma fold_add_key_inv l acc :
  NoDup acc -> NoDup (fold_left (Dict.add_key String.eqb) l acc) /\
  (forall x, x ∈ fold_left (Dict.add_key String.eqb) l acc -> x ∈ acc \/ x ∈ l).
Proof.
  revert acc. induction l as [|y l IH]; intros acc H; simpl.
  - split; [exact H | auto].
  - destruct (IH (Dict.add_key String.eqb acc y) (add_key_NoDup acc y H)) as [H1 H2].
    split; [exact H1|]. intros x Hx. apply H2 in Hx as [Hx|Hx].
    + apply add_key_elem in Hx as [Hx| ->]; [left; exact Hx | right; left].
    + right. right. exact Hx.
Qed.

End ChoiceFacts.

Module ParserClaims.
Import Py Regex RegexFacts ChoiceFacts.

(** C2 (amended): the option letters are taken as printed, in document
    order.  The keys of [extract_choices text] are pairwise distinct; they
    are the group-1 letters of the successive matches of the choice
    pattern, each kept at its first occurrence; every key is one
    uppercase letter A-Z; the key of a match is the character at the
    start of that match; and the matches start at strictly increasing
    positions.  Nothing makes the keys start at "A" or leave no gap. *)

Theorem choice_keys_are_printed_letters (text : string) :
  let ms := finditer fMS Parse.choice_pattern text in
  let ks := Dict.keys (Parse.extract_choices text) in
  NoDup ks /\
  ks = Dict.first_occurrences String.eqb (map (fun mr => group text mr 1) ms) /\
  Forall (fun k => exists d, k = String d "" /\ 65 <= nat_of_ascii d <= 90) ks /\
  Forall (fun mr => exists d, char_at (chars text) (m_start mr) = Some d
                              /\ group text mr 1 = String d "") ms /\
  (forall n mr1 mr2, ms !! n = Some mr1 -> ms !! S n = Some mr2 ->
                     m_start mr1 < m_start mr2).
Proof.
  intros ms ks.
  assert (Hletter : forall mr, In mr ms -> exists d,
            char_at (chars text) (m_start mr) = Some d /\ 65 <= nat_of_ascii d <= 90
            /\ group text mr 1 = String d "").
  { intros mr Hin. pose proof (chain_In _ _ _ _ _ _ (finditer_chain fMS Parse.choice_pattern text) Hin) as HS.
    apply choice_match_letter in HS as (_ & d & Hd & Hr & Hc).
    exists d. split; [exact Hd|]. split; [exact Hr|].
    unfold group, slice. rewrite Hc. replace (S (m_start mr) - m_start mr) with 1 by lia.
    apply substring_one. exact Hd. }
  assert (Hks : ks = Dict.first_occurrences String.eqb (map (fun mr => group text mr 1) ms)).
  { unfold ks, Parse.extract_choices, Dict.first_occurrences.
    rewrite (keys_fold (fun mr => group text mr 1)). reflexivity. }
  destruct (fold_add_key_inv (map (fun mr => group text mr 1) ms) [] (NoDup_nil_2)) as [Hnd Hel].
  split; [rewrite Hks; exact Hnd|]. split; [exact Hks|]. split; [|split].
  - apply Forall_forall. intros k Hk. rewrite Hks in Hk. apply Hel in Hk as [Hk|Hk].
    + apply elem_of_nil in Hk. destruct Hk.
    + apply list_elem_of_In, in_map_iff in Hk as (mr & <- & Hin).
      destruct (Hletter mr Hin) as (d & _ & Hr & Hg). exists d. split; [exact Hg | exact Hr].
  - apply Forall_forall. intros mr Hin. apply list_elem_of_In in Hin.
    destruct (Hletter mr Hin) as (d & Hd & _ & Hg). exists d. split; [exact Hd | exact Hg].
  - eapply chain_starts_increase; [|apply (finditer_chain fMS Parse.choice_pattern text)].
    intros i c j c' HS. apply choice_match_letter in HS as [Hlt _]. exact Hlt.
Qed.

(** C6 (amended): [clean_text] only deletes characters.  Its output is a
    subsequence of its input, so a second pass over its own output is a
    subsequence of the first pass: it may remove more text (the pass is
    not idempotent), but never adds or reorders characters. *)
Theorem clean_text_second_pass_only_deletes (t : string) :
  chars (Extract.clean_text (Extract.clean_text t)) `sublist_of` chars (Extract.clean_text t) /\
  chars (Extract.clean_text t) `sublist_of` chars t.
Proof. split; apply clean_text_sublist. Qed.

End ParserClaims.

(* ------------------------------------------------------------------ *)
(** ** JSON round trip of the exam files *)
(* ------------------------------------------------------------------ *)

Module JsonFacts.
Import Py Json.
Local Open Scope list_scope.

Lemma dumps_l_list l : dumps_l (JList l) = "["%char :: items_l l ++ ["]"%char].
Proof. reflexivity. Qed.
Lemma dumps_l_obj kvs : dumps_l (JObj kvs) = "{"%char :: items_kv kvs ++ ["}"%char].
Proof. reflexivity. Qed.
Lemma size_list l : size (JList l) = S (size_l l).
Proof. reflexivity. Qed.
Lemma size_obj kvs : size (JObj kvs) = S (size_kv kvs).
Proof. reflexivity. Qed.
Lemma wf_list l : wf (JList l) = wf_l l.
Proof. reflexivity. Qed.
Lemma wf_obj kvs : wf (JObj kvs) = nodup_keys (map fst kvs) && wf_kv kvs.
Proof. reflexivity. Qed.

Lemma enc_char_printable c : forallb printable (enc_char c) = true.
Proof. destruct c as [[] [] [] [] [] [] [] []]; reflexivity. Qed.

Lemma enc_char_decode c rest :
  p_string (enc_char c ++ rest) = option_map (fun p => (c :: fst p, snd p)) (p_string rest).
Proof. destruct c as [[] [] [] [] [] [] [] []]; reflexivity. Qed.

Lemma enc_str_decode s rest :
  p_string (flat_map enc_char (chars s) ++ quote :: rest) = Some (chars s, rest).
Proof.
  induction (chars s) as [|c l IH]; [reflexivity|].
  simpl. rewrite <- app_assoc, enc_char_decode, IH. reflexivity.
Qed.

Lemma digits_rev_spec n f :
  n < f ->
  Forall (fun d => is_digit d = true) (rev (digits_rev f n))
  /\ fold_left (fun acc c => (10 * acc + Z.of_nat (code c - 48))%Z) (rev (digits_rev f n)) 0%Z = Z.of_nat n
  /\ exists d ds, rev (digits_rev f n) = d :: ds
                  /\ (n = 0 -> ds = [] /\ d = "0"%char)
                  /\ (0 < n -> Ascii.eqb d "0" = false).
Proof.
  revert f. induction n as [n IHn] using lt_wf_ind. intros f Hf.
  destruct f as [|f]; [lia|].
  change (digits_rev (S f) n) with
    (if n <? 10 then [ascii_of_nat (48 + n mod 10)]
     else ascii_of_nat (48 + n mod 10) :: digits_rev f (n / 10)).
  assert (Hc : code (ascii_of_nat (48 + n mod 10)) = 48 + n mod 10).
  { unfold code. apply nat_ascii_embedding.
    pose proof (Nat.mod_upper_bound n 10). lia. }
  assert (Hd : is_digit (ascii_of_nat (48 + n mod 10)) = true).
  { unfold is_digit. rewrite Hc. pose proof (Nat.mod_upper_bound n 10).
    apply andb_true_iff; split; apply Nat.leb_le; lia. }
  remember (ascii_of_nat (48 + n mod 10)) as d0 eqn:Ed0.
  destruct (n <? 10) eqn:Hn.
  - apply Nat.ltb_lt in Hn. rewrite Nat.mod_small in Hc, Ed0 by exact Hn.
    cbn [rev app].
    split; [constructor; [exact Hd | constructor]|]. split.
    + cbn [fold_left]. rewrite Hc. f_equal. lia.
    + exists d0, []. split; [reflexivity|]. split.
      * intros ->. split; [reflexivity|]. rewrite Ed0. reflexivity.
      * intros Hpos. destruct (Ascii.eqb_spec d0 "0") as [E|E]; [|reflexivity].
        exfalso. rewrite E in Hc. vm_compute in Hc. lia.
  - apply Nat.ltb_ge in Hn. cbn [rev].
    assert (Hlt : n / 10 < n) by (apply Nat.div_lt; lia).
    destruct (IHn (n / 10) Hlt f ltac:(lia)) as (HF & HV & d & ds & Heq & _ & Hnz).
    split; [|split].
    + apply Forall_app. split; [exact HF|]. constructor; [exact Hd|constructor].
    + rewrite fold_left_app, HV. cbn [fold_left]. rewrite Hc.
      pose proof (Nat.div_mod_eq n 10). lia.
    + rewrite Heq. exists d, (ds ++ [d0]). split; [reflexivity|]. split.
      * lia.
      * intros _. apply Hnz. apply Nat.div_str_pos. lia.
Qed.

Lemma span_digits_app ds r :
  Forall (fun d => is_digit d = true) ds ->
  match r with c :: _ => is_digit c = false | [] => True end ->
  span_digits (ds ++ r) = (ds, r).
Proof.
  intros HF Hr. induction HF as [|d ds Hd HF IH]; simpl.
  - destruct r as [|c r]; [reflexivity|]. simpl. rewrite Hr. reflexivity.
  - rewrite Hd, IH. reflexivity.
Qed.

Lemma delim_not_digit r :
  delim r = true -> match r with c :: _ => is_digit c = false | [] => True end.
Proof.
  destruct r as [|c r]; [trivial|]. unfold delim.
  destruct c as [[] [] [] [] [] [] [] []]; first [reflexivity | discriminate].
Qed.

Lemma delim_not_float r : delim r = true -> float_tail r = false.
Proof.
  destruct r as [|c r]; [reflexivity|]. unfold delim.
  destruct c as [[] [] [] [] [] [] [] []]; first [reflexivity | discriminate].
Qed.

Lemma int_of_digits_chars ds :
  int_of_digits (of_chars ds) = fold_left (fun acc c => (10 * acc + Z.of_nat (code c - 48))%Z) ds 0%Z.
Proof. unfold int_of_digits, chars, of_chars. rewrite list_ascii_of_string_of_list_ascii. reflexivity. Qed.

Lemma digit_not_minus c : is_digit c = true -> Ascii.eqb c "-" = false.
Proof. destruct c as [[] [] [] [] [] [] [] []]; first [reflexivity | discriminate]. Qed.

Lemma chars_str_nat m : chars (str_nat m) = rev (digits_rev (S m) m).
Proof. unfold str_nat, chars, of_chars. apply list_ascii_of_string_of_list_ascii. Qed.

Lemma p_number_digits neg m r :
  delim r = true -> (neg = true -> 0 < m) ->
  p_number ((if neg then ["-"%char] else []) ++ chars (str_nat m) ++ r)
  = Some (JInt ((if neg then -1 else 1) * Z.of_nat m)%Z, r).
Proof.
  intros Hr Hneg. rewrite chars_str_nat.
  destruct (digits_rev_spec m (S m) ltac:(lia)) as (HF & HV & d & ds & Heq & H0 & Hnz).
  rewrite Heq in HF, HV |- *.
  assert (Hd : is_digit d = true) by (inversion HF; assumption).
  assert (Hds : Forall (fun d => is_digit d = true) ds) by (inversion HF; assumption).
  unfold p_number.
  assert (Hpre : match (if neg then ["-"%char] else []) ++ (d :: ds) ++ r with
                 | c :: r0 => if Ascii.eqb c "-" then (true, r0) else (false, (if neg then ["-"%char] else []) ++ (d :: ds) ++ r)
                 | [] => (false, (if neg then ["-"%char] else []) ++ (d :: ds) ++ r)
                 end = (neg, d :: ds ++ r)).
  { destruct neg; [reflexivity|]. cbn [app]. rewrite digit_not_minus by exact Hd. reflexivity. }
  rewrite Hpre. clear Hpre.
  destruct (Ascii.eqb d "0") eqn:Ed0.
  - destruct m as [|m].
    + destruct (H0 eq_refl) as [-> ->]. cbn [app].
      destruct neg; [specialize (Hneg eq_refl); lia|].
      rewrite (delim_not_float r Hr). reflexivity.
    + specialize (Hnz ltac:(lia)). discriminate.
  - rewrite Hd. rewrite (span_digits_app ds r Hds (delim_not_digit r Hr)).
    rewrite (delim_not_float r Hr). rewrite int_of_digits_chars, HV. reflexivity.
Qed.

Lemma p_number_int_repr z r :
  delim r = true -> p_number (int_repr z ++ r) = Some (JInt z, r).
Proof.
  intros Hr. unfold int_repr. destruct (Z.ltb_spec z 0) as [Hz|Hz].
  - pose proof (p_number_digits true (Z.to_nat (- z)) r Hr ltac:(intros; lia)) as H.
    cbn [app] in H |- *. rewrite H. repeat f_equal. lia.
  - pose proof (p_number_digits false (Z.to_nat z) r Hr ltac:(discriminate)) as H.
    cbn [app] in H |- *. rewrite H. repeat f_equal. lia.
Qed.

Lemma int_repr_head z :
  exists c rest, int_repr z = c :: rest /\ (is_digit c || Ascii.eqb c "-") = true.
Proof.
  unfold int_repr. destruct (z <? 0)%Z.
  - eexists _, _. split; [reflexivity|]. reflexivity.
  - rewrite chars_str_nat.
    destruct (digits_rev_spec (Z.to_nat z) (S (Z.to_nat z)) ltac:(lia)) as (HF & _ & d & ds & Heq & _).
    rewrite Heq in HF |- *. exists d, ds. split; [reflexivity|].
    inversion HF as [|? ? Hd]; subst. rewrite Hd. reflexivity.
Qed.

Lemma num_head_ok c :
  (is_digit c || Ascii.eqb c "-") = true ->
  is_ws c = false /\ Ascii.eqb c "]" = false /\ Ascii.eqb c "}" = false.
Proof. destruct c as [[] [] [] [] [] [] [] []]; first [discriminate | intros _; repeat split]. Qed.

Lemma p_value_num n c r :
  (is_digit c || Ascii.eqb c "-") = true -> p_value (S n) (c :: r) = p_number (c :: r).
Proof. destruct c as [[] [] [] [] [] [] [] []]; first [discriminate | reflexivity]. Qed.

Lemma dumps_head v :
  exists c rest, dumps_l v = c :: rest
                 /\ is_ws c = false /\ Ascii.eqb c "]" = false /\ Ascii.eqb c "}" = false.
Proof.
  destruct v as [| [] | z | s | l | kvs];
    try (eexists _, _; split; [reflexivity | repeat split]).
  destruct (int_repr_head z) as (c & rest & E & Hc).
  exists c, rest. split; [exact E | exact (num_head_ok c Hc)].
Qed.

Lemma skip_ws_dumps v r : skip_ws (dumps_l v ++ r) = dumps_l v ++ r.
Proof.
  destruct (dumps_head v) as (c & rest & E & Hws & _). rewrite E. simpl. rewrite Hws. reflexivity.
Qed.

Lemma p_value_str n L :
  p_value (S n) (quote :: L) = option_map (fun p => (JStr (of_chars (fst p)), snd p)) (p_string L).
Proof. reflexivity. Qed.

Lemma p_value_list n c L :
  is_ws c = false -> Ascii.eqb c "]" = false ->
  p_value (S n) ("["%char :: c :: L) = option_map (fun p => (JList (fst p), snd p)) (p_elems n (c :: L)).
Proof. intros H1 H2. simpl. rewrite H1, H2. reflexivity. Qed.

Lemma p_value_obj n L :
  p_value (S n) ("{"%char :: quote :: L)
  = option_map (fun p => (JObj (build_obj (fst p)), snd p)) (p_members n L).
Proof. reflexivity. Qed.

Lemma p_elems_step n L :
  p_elems (S n) L =
  match p_value n L with
  | Some (v, r) =>
    match skip_ws r with
    | c :: r2 =>
      if Ascii.eqb c "," then option_map (fun p => (v :: fst p, snd p)) (p_elems n (skip_ws r2))
      else if Ascii.eqb c "]" then Some ([v], r2)
      else None
    | [] => None
    end
  | None => None
  end.
Proof. reflexivity. Qed.

Lemma p_members_step n L :
  p_members (S n) L =
  match p_string L with
  | Some (k, r) =>
    match skip_ws r with
    | c :: r2 =>
      if Ascii.eqb c ":" then
        match p_value n (skip_ws r2) with
        | Some (v, r3) =>
          match skip_ws r3 with
          | c3 :: r4 =>
            if Ascii.eqb c3 "," then
              match skip_ws r4 with
              | c4 :: r5 =>
                if Ascii.eqb c4 quote then
                  option_map (fun p => ((of_chars k, v) :: fst p, snd p)) (p_members n r5)
                else None
              | [] => None
              end
            else if Ascii.eqb c3 "}" then Some ([(of_chars k, v)], r4)
            else None
          | [] => None
          end
        | None => None
        end
      else None
    | [] => None
    end
  | None => None
  end.
Proof. reflexivity. Qed.

Lemma size_pos v : 1 <= size v.
Proof. destruct v; simpl; lia. Qed.

Lemma dumps_list_app l r : dumps_l (JList l) ++ r = "["%char :: (items_l l ++ "]"%char :: r).
Proof. rewrite dumps_l_list. simpl. rewrite <- app_assoc. reflexivity. Qed.

Lemma dumps_obj_app kvs r : dumps_l (JObj kvs) ++ r = "{"%char :: (items_kv kvs ++ "}"%char :: r).
Proof. rewrite dumps_l_obj. simpl. rewrite <- app_assoc. reflexivity. Qed.

Lemma dumps_str_app s r :
  dumps_l (JStr s) ++ r = quote :: (flat_map enc_char (chars s) ++ quote :: r).
Proof. simpl. unfold enc_str. simpl. rewrite <- app_assoc. reflexivity. Qed.

Lemma items_kv_app k x kvs' r :
  items_kv ((k, x) :: kvs') ++ "}"%char :: r
  = quote :: (flat_map enc_char (chars k) ++ quote :: (chars ": " ++ dumps_l x ++ kv_tail kvs' r)).
Proof.
  destruct kvs' as [|kv kvs'].
  - change (items_kv [(k, x)]) with (enc_str k ++ chars ": " ++ dumps_l x).
    unfold enc_str, kv_tail. cbn [app]. rewrite <- !app_assoc. reflexivity.
  - change (items_kv ((k, x) :: kv :: kvs'))
      with (enc_str k ++ chars ": " ++ dumps_l x ++ chars ", " ++ items_kv (kv :: kvs')).
    unfold enc_str, kv_tail. cbn [app]. rewrite <- !app_assoc. reflexivity.
Qed.

Lemma items_l_app x l' r :
  items_l (x :: l') ++ "]"%char :: r
  = dumps_l x ++ match l' with [] => "]"%char :: r | _ => chars ", " ++ items_l l' ++ "]"%char :: r end.
Proof.
  destruct l' as [|y l']; [reflexivity|].
  change (items_l (x :: y :: l')) with (dumps_l x ++ chars ", " ++ items_l (y :: l')).
  rewrite <- !app_assoc. reflexivity.
Qed.

Lemma set_fresh (k : string) (x : json) (d : Dict.dict string json) :
  ~ In k (map fst d) -> Dict.set String.eqb k x d = d ++ [(k, x)].
Proof.
  induction d as [|[k' x'] d IH]; intros Hn; [reflexivity|]. simpl in Hn |- *.
  destruct (String.eqb_spec k' k) as [->|Hne]; [tauto|].
  rewrite IH by tauto. reflexivity.
Qed.

Lemma nodup_keys_spec l : nodup_keys l = true -> NoDup l.
Proof.
  induction l as [|k l IH]; simpl; intros H; [constructor|].
  apply andb_true_iff in H as [H1 H2]. constructor; [|auto].
  intros Hin. apply negb_true_iff in H1. rewrite <- not_true_iff_false in H1. apply H1.
  apply existsb_exists. exists k. split; [apply list_elem_of_In; exact Hin | apply String.eqb_refl].
Qed.

Lemma build_obj_nodup kvs : NoDup (map fst kvs) -> build_obj kvs = kvs.
Proof.
  unfold build_obj. intros H. change kvs with ([] ++ kvs) in H |- * at 2.
  revert H. generalize (@nil (string * json)) as acc.
  induction kvs as [|[k x] kvs IH]; intros acc H; simpl; [rewrite app_nil_r; reflexivity|].
  rewrite set_fresh.
  - rewrite (IH (acc ++ [(k, x)])); [rewrite <- app_assoc; reflexivity|].
    rewrite <- app_assoc. exact H.
  - rewrite map_app in H. simpl in H. apply NoDup_app in H as (_ & Hd & _).
    intros Hin. apply (Hd k); [apply list_elem_of_In; exact Hin | left].
Qed.

Lemma delim_kv_tail kvs' r : delim (kv_tail kvs' r) = true.
Proof. destruct kvs'; reflexivity. Qed.

Lemma parse_dumps n :
  (forall v r, wf v = true -> size v <= n -> delim r = true ->
               p_value n (dumps_l v ++ r) = Some (v, r))
  /\ (forall x l' r, wf_l (x :: l') = true -> size_l (x :: l') <= n ->
                     p_elems n (items_l (x :: l') ++ "]"%char :: r) = Some (x :: l', r))
  /\ (forall k x kvs' r, wf_kv ((k, x) :: kvs') = true -> size_kv ((k, x) :: kvs') <= n ->
        p_members n (flat_map enc_char (chars k) ++ quote :: (chars ": " ++ dumps_l x ++ kv_tail kvs' r))
        = Some ((k, x) :: kvs', r)).
Proof.
  induction n as [|n (IHv & IHl & IHk)].
  { split; [|split].
    - intros v r _ Hs. pose proof (size_pos v). lia.
    - intros x l' r _ Hs. simpl in Hs. lia.
    - intros k x kvs' r _ Hs. simpl in Hs. lia. }
  split; [|split].
  - intros v r Hwf Hs Hr. destruct v as [| b | z | s | l | kvs].
    + reflexivity.
    + destruct b; reflexivity.
    + destruct (int_repr_head z) as (c & rest & E & Hc).
      change (dumps_l (JInt z)) with (int_repr z). rewrite E. cbn [app].
      rewrite p_value_num by exact Hc. rewrite app_comm_cons, <- E.
      apply p_number_int_repr, Hr.
    + rewrite dumps_str_app, p_value_str, enc_str_decode. simpl.
      unfold of_chars, chars. rewrite string_of_list_ascii_of_string. reflexivity.
    + rewrite dumps_list_app. destruct l as [|x l'].
      * reflexivity.
      * rewrite items_l_app.
        destruct (dumps_head x) as (c & rest & E & Hws & Hb & _).
        rewrite E. cbn [app]. rewrite p_value_list by assumption.
        rewrite app_comm_cons, <- E, <- items_l_app.
        rewrite IHl; [reflexivity | exact Hwf | rewrite size_list in Hs; lia].
    + rewrite dumps_obj_app. destruct kvs as [|[k x] kvs'].
      * reflexivity.
      * rewrite items_kv_app, p_value_obj.
        rewrite wf_obj in Hwf. apply andb_true_iff in Hwf as [Hnd Hwf].
        rewrite IHk; [| exact Hwf | rewrite size_obj in Hs; lia].
        simpl. rewrite build_obj_nodup; [reflexivity|].
        apply nodup_keys_spec. exact Hnd.
  - intros x l' r Hwf Hs.
    change (wf_l (x :: l')) with (wf x && wf_l l') in Hwf.
    apply andb_true_iff in Hwf as [Hwx Hwl].
    change (size_l (x :: l')) with (S (size x + size_l l')) in Hs.
    rewrite items_l_app, p_elems_step.
    destruct l' as [|y l''].
    + rewrite IHv; [reflexivity | exact Hwx | lia | reflexivity].
    + rewrite IHv; [| exact Hwx | lia | reflexivity].
      remember (items_l (y :: l'') ++ "]"%char :: r) as REST eqn:EREST.
      assert (HR : skip_ws REST = REST).
      { rewrite EREST, items_l_app. apply skip_ws_dumps. }
      simpl. rewrite HR, EREST.
      change (size_l (y :: l'')) with (S (size y + size_l l'')) in Hs.
      rewrite IHl; [reflexivity | exact Hwl | simpl; lia].
  - intros k x kvs' r Hwf Hs.
    change (wf_kv ((k, x) :: kvs')) with (wf x && wf_kv kvs') in Hwf.
    apply andb_true_iff in Hwf as [Hwx Hwk].
    change (size_kv ((k, x) :: kvs')) with (S (size x + size_kv kvs')) in Hs.
    rewrite p_members_step, enc_str_decode.
    change (chars ": " ++ dumps_l x ++ kv_tail kvs' r)
      with (":"%char :: " "%char :: (dumps_l x ++ kv_tail kvs' r)).
    cbn [skip_ws is_ws Ascii.eqb Bool.eqb orb].
    rewrite skip_ws_dumps.
    rewrite IHv; [| exact Hwx | lia | apply delim_kv_tail].
    destruct kvs' as [|[k' x'] kvs''].
    + simpl. unfold of_chars, chars. rewrite string_of_list_ascii_of_string. reflexivity.
    + unfold kv_tail. rewrite items_kv_app.
      change (size_kv ((k', x') :: kvs'')) with (S (size x' + size_kv kvs'')) in Hs.
      remember (flat_map enc_char (chars k') ++ quote :: (chars ": " ++ dumps_l x' ++ kv_tail kvs'' r))
        as BODY eqn:EB.
      simpl. rewrite EB, IHk; [| exact Hwk | simpl; lia].
      simpl. unfold of_chars, chars. rewrite string_of_list_ascii_of_string. reflexivity.
Qed.

Lemma json_nested_ind (P : json -> Prop)
  (Hnull : P JNull) (Hbool : forall b, P (JBool b)) (Hint : forall z, P (JInt z))
  (Hstr : forall s, P (JStr s))
  (Hlist : forall l, Forall P l -> P (JList l))
  (Hobj : forall kvs, Forall (fun kv => P (snd kv)) kvs -> P (JObj kvs)) :
  forall v, P v.
Proof.
  fix IH 1. intros [| b | z | s | l | kvs].
  - exact Hnull.
  - apply Hbool.
  - apply Hint.
  - apply Hstr.
  - apply Hlist. induction l as [|x l IHl]; constructor; [apply IH | exact IHl].
  - apply Hobj. induction kvs as [|kv kvs IHk]; constructor; [apply IH | exact IHk].
Qed.

Lemma size_le_length v : size v <= List.length (dumps_l v).
Proof.
  induction v as [| b | z | s | l Hl | kvs Hk] using json_nested_ind.
  - simpl. lia.
  - destruct b; simpl; lia.
  - destruct (int_repr_head z) as (c & rest & E & _). simpl. rewrite E. simpl. lia.
  - simpl. lia.
  - rewrite size_list, dumps_l_list. simpl. rewrite length_app. simpl.
    enough (size_l l <= List.length (items_l l) + 1) by lia.
    induction Hl as [|x l' Hx Hl' IH]; [simpl; lia|].
    change (size_l (x :: l')) with (S (size x + size_l l')).
    destruct l' as [|y l''].
    + simpl. change (items_l [x]) with (dumps_l x). lia.
    + change (items_l (x :: y :: l'')) with (dumps_l x ++ chars ", " ++ items_l (y :: l'')).
      rewrite !length_app. change (List.length (chars ", ")) with 2.
      lia.
  - rewrite size_obj, dumps_l_obj. simpl. rewrite length_app. simpl.
    enough (size_kv kvs <= List.length (items_kv kvs) + 1) by lia.
    induction Hk as [|[k x] kvs' Hx Hk' IH]; [simpl; lia|].
    change (size_kv ((k, x) :: kvs')) with (S (size x + size_kv kvs')).
    simpl in Hx.
    assert (Hk2 : 2 <= List.length (enc_str k)).
    { unfold enc_str. cbn [List.length]. rewrite length_app. cbn [List.length]. lia. }
    destruct kvs' as [|kv kvs''].
    + change (items_kv [(k, x)]) with (enc_str k ++ chars ": " ++ dumps_l x).
      rewrite !length_app. change (List.length (chars ": ")) with 2.
      change (size_kv []) with 0. lia.
    + change (items_kv ((k, x) :: kv :: kvs''))
        with (enc_str k ++ chars ": " ++ dumps_l x ++ chars ", " ++ items_kv (kv :: kvs'')).
      rewrite !length_app. change (List.length (chars ": ")) with 2.
      change (List.length (chars ", ")) with 2. lia.
Qed.

Lemma digit_printable c : is_digit c = true -> printable c = true.
Proof. destruct c as [[] [] [] [] [] [] [] []]; first [discriminate | reflexivity]. Qed.

Lemma enc_str_printable s : forallb printable (enc_str s) = true.
Proof.
  unfold enc_str. simpl. rewrite forallb_app. apply andb_true_iff. split; [|reflexivity].
  induction (chars s) as [|c l IH]; [reflexivity|]. simpl.
  rewrite forallb_app, enc_char_printable, IH. reflexivity.
Qed.

Lemma dumps_printable v : forallb printable (dumps_l v) = true.
Proof.
  induction v as [| b | z | s | l Hl | kvs Hk] using json_nested_ind.
  - reflexivity.
  - destruct b; reflexivity.
  - unfold dumps_l, int_repr.
    assert (Hd : forall m, forallb printable (chars (str_nat m)) = true).
    { intros m. rewrite chars_str_nat.
      destruct (digits_rev_spec m (S m) ltac:(lia)) as (HF & _).
      apply forallb_forall. intros c Hc. rewrite Forall_forall in HF.
      apply digit_printable, HF, list_elem_of_In, Hc. }
    destruct (z <? 0)%Z; [simpl|]; apply Hd.
  - apply enc_str_printable.
  - rewrite dumps_l_list. simpl. rewrite forallb_app. apply andb_true_iff. split; [|reflexivity].
    induction Hl as [|x l' Hx Hl' IH]; [reflexivity|].
    destruct l' as [|y l'']; [exact Hx|].
    change (items_l (x :: y :: l'')) with (dumps_l x ++ chars ", " ++ items_l (y :: l'')).
    rewrite !forallb_app, Hx, IH. reflexivity.
  - rewrite dumps_l_obj. simpl. rewrite forallb_app. apply andb_true_iff. split; [|reflexivity].
    induction Hk as [|[k x] kvs' Hx Hk' IH]; [reflexivity|]. simpl in Hx.
    destruct kvs' as [|kv kvs''].
    + change (items_kv [(k, x)]) with (enc_str k ++ chars ": " ++ dumps_l x).
      rewrite !forallb_app, Hx, enc_str_printable. reflexivity.
    + change (items_kv ((k, x) :: kv :: kvs''))
        with (enc_str k ++ chars ": " ++ dumps_l x ++ chars ", " ++ items_kv (kv :: kvs'')).
      rewrite !forallb_app, Hx, IH, enc_str_printable. reflexivity.
Qed.

Lemma loads_dumps_app v r :
  wf v = true -> delim r = true -> skip_ws r = [] ->
  loads_l (dumps_l v ++ r) = Some v.
Proof.
  intros Hwf Hd Hs. unfold loads_l. rewrite skip_ws_dumps.
  rewrite (proj1 (parse_dumps (2 * List.length (dumps_l v ++ r) + 2)) v r Hwf); [| | exact Hd].
  - rewrite Hs. reflexivity.
  - pose proof (size_le_length v). rewrite length_app. lia.
Qed.

Lemma univ_nl_id l : forallb (fun c => negb (Ascii.eqb c "013")) l = true -> univ_nl l = l.
Proof.
  induction l as [|c l IH]; simpl; [reflexivity|].
  intros H. apply andb_true_iff in H as [H1 H2]. apply negb_true_iff in H1.
  rewrite H1, IH by exact H2. reflexivity.
Qed.

Lemma split_lines_app d rest cur :
  forallb (fun c => negb (Ascii.eqb c nl)) d = true ->
  split_lines (d ++ nl :: rest) cur = (rev cur ++ d ++ [nl]) :: split_lines rest [].
Proof.
  revert cur. induction d as [|c d IH]; intros cur H; simpl.
  - reflexivity.
  - simpl in H. apply andb_true_iff in H as [H1 H2]. apply negb_true_iff in H1.
    rewrite H1, IH by exact H2. simpl. rewrite <- app_assoc. reflexivity.
Qed.

Lemma lstrip_snoc_nonempty p l c : p c = false -> lstrip_l p (l ++ [c]) <> [].
Proof.
  induction l as [|d l IH]; simpl; intros H.
  - rewrite H. discriminate.
  - destruct (p d); [apply IH, H | discriminate].
Qed.

Lemma strip_nonblank c l : is_space c = false -> String.eqb (strip (of_chars (c :: l))) "" = false.
Proof.
  intros H. unfold strip, chars, of_chars. rewrite list_ascii_of_string_of_list_ascii.
  simpl. rewrite H. unfold rstrip_l. simpl.
  destruct (lstrip_l is_space (rev l ++ [c])) as [|d r] eqn:E.
  - exfalso. exact (lstrip_snoc_nonempty is_space (rev l) c H E).
  - simpl. destruct (rev r ++ [d]) eqn:E2; [apply app_eq_nil in E2 as [_ E2]; discriminate | reflexivity].
Qed.

Lemma printable_no_ctl l :
  forallb printable l = true ->
  forallb (fun c => negb (Ascii.eqb c "013")) l = true
  /\ forallb (fun c => negb (Ascii.eqb c nl)) l = true.
Proof.
  intros H. rewrite forallb_forall in H.
  split; apply forallb_forall; intros c Hc; specialize (H c Hc);
    revert H; destruct c as [[] [] [] [] [] [] [] []]; first [discriminate | reflexivity].
Qed.

(** X1: every character [json.dumps] writes for a record is printable ASCII (codes 32 to 126), so a saved line never holds a raw newline or a non-ASCII byte. *)
Theorem dumps_is_printable_ascii v :
  Forall (fun c => 32 <= code c <= 126) (chars (dumps v)).
Proof.
  unfold dumps, chars, of_chars. rewrite list_ascii_of_string_of_list_ascii.
  pose proof (dumps_printable v) as H. rewrite forallb_forall in H.
  apply Forall_forall. intros c Hc. specialize (H c (proj1 (list_elem_of_In _ _) Hc)).
  unfold printable in H. apply andb_true_iff in H as [H1 H2].
  apply Nat.leb_le in H1, H2. lia.
Qed.

(** X2: [json.loads] gives back every JSON value that [json.dumps] wrote, as long as no object in it repeats a key. *)
Theorem loads_dumps v : wf v = true -> loads_l (chars (dumps v)) = Some v.
Proof.
  intros Hwf. unfold dumps, chars, of_chars. rewrite list_ascii_of_string_of_list_ascii.
  rewrite <- (app_nil_r (dumps_l v)). apply loads_dumps_app; [exact Hwf | reflexivity | reflexivity].
Qed.

(** X3: reading an exam file back with [load_exam] gives exactly the records [save_exam] wrote, in order, as long as no record repeats a key at any depth. *)
Theorem load_text_save_text qs :
  forallb (fun q => wf (JObj q)) qs = true -> load_text (save_text qs) = Some (map JObj qs).
Proof.
  intros Hwf. unfold load_text, save_text.
  rewrite univ_nl_id.
  2:{ clear Hwf. induction qs as [|q qs IH]; [reflexivity|]. cbn [flat_map].
      rewrite !forallb_app, IH.
      rewrite (proj1 (printable_no_ctl _ (dumps_printable (JObj q)))). reflexivity. }
  induction qs as [|q qs IH]; [reflexivity|]. simpl in Hwf.
  apply andb_true_iff in Hwf as [Hq Hwf]. cbn [flat_map].
  rewrite <- app_assoc. cbn [app].
  rewrite split_lines_app by exact (proj2 (printable_no_ctl _ (dumps_printable (JObj q)))).
  cbn [load_lines rev app].
  assert (Hs : String.eqb (strip (of_chars (dumps_l (JObj q) ++ [nl]))) "" = false).
  { rewrite dumps_l_obj. apply strip_nonblank. reflexivity. }
  rewrite Hs, loads_dumps_app by (exact Hq || reflexivity).
  rewrite IH by exact Hwf. reflexivity.
Qed.

End JsonFacts.

(* ------------------------------------------------------------------ *)
(** ** Parser output *)
(* ------------------------------------------------------------------ *)

Module ParserFacts.
Import Py Regex Parse ParseOut.
Local Open Scope list_scope.

Lemma detect_question_type_in stem choices has_image :
  In (detect_question_type stem choices has_image) question_types.
Proof.
  unfold detect_question_type, question_types.
  repeat match goal with |- context [if ?b then _ else _] => destruct b end; simpl; tauto.
Qed.

Lemma parse_block_shape src imgs idx num blk q :
  parse_block src imgs idx num blk = Some q ->
  map fst q = record_keys
  /\ Dict.get String.eqb "question_id" q = Some (JInt (Z.of_nat idx))
  /\ Dict.get String.eqb "source_pdf" q = Some (JStr src)
  /\ Dict.get String.eqb "user_answer" q = Some JNull
  /\ exists t, Dict.get String.eqb "question_type" q = Some (JStr t) /\ In t question_types.
Proof.
  unfold parse_block. destruct (String.eqb (strip blk) "") ; [discriminate|].
  destruct (split_stem (remove_page_markers blk)) as [stem rest].
  intros H. injection H as <-.
  split; [reflexivity|]. split; [reflexivity|]. split; [reflexivity|]. split; [reflexivity|].
  eexists. split; [reflexivity|]. apply detect_question_type_in.
Qed.

Lemma parse_pairs_ids src imgs idx splits :
  (forall q, In q (parse_pairs src imgs idx splits) ->
     exists idx' num blk, parse_block src imgs idx' num blk = Some q)
  /\ exists ks, map (Dict.get String.eqb "question_id") (parse_pairs src imgs idx splits)
                = map (fun k => Some (JInt (Z.of_nat k))) ks
                /\ Sorted lt ks /\ Forall (lt idx) ks.
Proof.
  remember (List.length splits) as n eqn:En. revert idx splits En.
  induction n as [n IHn] using lt_wf_ind. intros idx splits En.
  destruct splits as [|num [|blk rest]].
  - simpl. split; [intros q Hq; destruct Hq|]. exists []. repeat constructor.
  - simpl. split; [intros q Hq; destruct Hq|]. exists []. repeat constructor.
  - simpl in En.
    destruct (IHn (List.length rest) ltac:(lia) (S idx) rest eq_refl) as [Hin [ks (Hks & Hs & Hf)]].
    simpl. destruct (parse_block src imgs (S idx) num blk) as [q|] eqn:E; simpl.
    + split.
      * intros q' Hq'. destruct Hq' as [<-|H]; [eauto | exact (Hin q' H)].
      * exists (S idx :: ks). split.
        -- simpl. rewrite (proj1 (proj2 (parse_block_shape _ _ _ _ _ _ E))), Hks. reflexivity.
        -- split.
           ++ constructor; [exact Hs|]. destruct ks as [|k ks]; constructor.
              inversion Hf; assumption.
           ++ constructor; [lia|]. eapply Forall_impl; [exact Hf|]. intros k Hk. lia.
    + split; [exact Hin|]. exists ks. split; [exact Hks|]. split; [exact Hs|].
      eapply Forall_impl; [exact Hf|]. intros k Hk. lia.
Qed.

(** X4: every record [parse_questions_from_text] returns has the 14 keys in the fixed order, source_pdf equal to the given name, user_answer null, and a question_type from the five types of [detect_question_type]. *)
Theorem parsed_records_shape text source_pdf images_by_page q :
  In q (parse_questions_from_text text source_pdf images_by_page) ->
  map fst q = record_keys
  /\ Dict.get String.eqb "source_pdf" q = Some (JStr source_pdf)
  /\ Dict.get String.eqb "user_answer" q = Some JNull
  /\ exists t, Dict.get String.eqb "question_type" q = Some (JStr t) /\ In t question_types.
Proof.
  unfold parse_questions_from_text. intros Hin.
  destruct (proj1 (parse_pairs_ids _ _ _ _) q Hin) as (idx & num & blk & E).
  destruct (parse_block_shape _ _ _ _ _ _ E) as (H1 & _ & H3 & H4 & H5). auto.
Qed.

(** X5: the question_ids of the records [parse_questions_from_text] returns are integers, at least 1 and strictly increasing. *)
Theorem parsed_ids_increasing text source_pdf images_by_page :
  exists ks, map (Dict.get String.eqb "question_id") (parse_questions_from_text text source_pdf images_by_page)
             = map (fun k => Some (JInt (Z.of_nat k))) ks
             /\ Sorted lt ks /\ Forall (fun k => 1 <= k) ks.
Proof.
  unfold parse_questions_from_text.
  destruct (proj2 (parse_pairs_ids source_pdf images_by_page 0
             (let splits := split fM question_pattern text in
              if 1 <? List.length splits then tl splits else splits))) as (ks & H1 & H2 & H3).
  exists ks. split; [exact H1|]. split; [exact H2|].
  eapply Forall_impl; [exact H3|]. intros k Hk. lia.
Qed.

Lemma first_answer_alphabet ps text a :
  first_answer ps text = Some a ->
  Forall (fun c => is_alpha c = true \/ c = ","%char) (chars a).
Proof.
  induction ps as [|p ps IH]; simpl; [discriminate|].
  destruct (search fI p text) as [mr|]; [|exact IH].
  intros H. injection H as <-.
  apply Forall_forall. intros c Hc.
  eapply elem_of_sublist in Hc; [|apply RegexFacts.sub_delete_sublist].
  rewrite RegexFacts.chars_of_chars in Hc. apply list_elem_of_filter in Hc as [Hc _].
  apply Is_true_true in Hc.
  apply orb_true_iff in Hc as [Hc|Hc]; [left; exact Hc | right; apply Ascii.eqb_eq, Hc].
Qed.

(** X6: an answer returned by [extract_answer] contains only letters and commas. *)
Theorem extract_answer_alphabet text answer_type a :
  extract_answer text answer_type = Some a ->
  Forall (fun c => is_alpha c = true \/ c = ","%char) (chars a).
Proof. apply first_answer_alphabet. Qed.

Lemma get_set_Z {V} (k k' : Z) (v : V) (d : Dict.dict Z V) :
  Dict.get Z.eqb k (Dict.set Z.eqb k' v d)
  = if Z.eqb k' k then Some v else Dict.get Z.eqb k d.
Proof.
  induction d as [|[k0 v0] d IH]; simpl; [reflexivity|].
  destruct (Z.eqb_spec k0 k') as [->|Hne]; simpl.
  - destruct (Z.eqb k' k); reflexivity.
  - rewrite IH. destruct (Z.eqb_spec k' k) as [->|]; [|reflexivity].
    destruct (Z.eqb_spec k0 k); [congruence|reflexivity].
Qed.

Lemma keys_set_Z {V} (k : Z) (v : V) (d : Dict.dict Z V) :
  NoDup (map fst d) -> NoDup (map fst (Dict.set Z.eqb k v d)).
Proof.
  induction d as [|[k0 v0] d IH]; simpl; intros H.
  - constructor; [apply not_elem_of_nil | constructor].
  - apply NoDup_cons in H as [Hn Hd]. destruct (Z.eqb_spec k0 k) as [->|Hne]; simpl.
    + apply NoDup_cons. split; assumption.
    + apply NoDup_cons. split; [|apply IH, Hd].
      intros Hin. apply list_elem_of_In in Hin.
      assert (Hs : forall d', In k0 (map fst (Dict.set Z.eqb k v d')) -> k0 = k \/ In k0 (map fst d')).
      { clear. induction d' as [|[k1 v1] d' IH]; simpl; [intros [H|[]]; left; congruence|].
        destruct (Z.eqb k1 k); simpl; [tauto|]. intros [H|H]; [tauto|]. apply IH in H. tauto. }
      destruct (Hs d Hin) as [E|E]; [congruence|]. apply Hn, list_elem_of_In, E.
Qed.

(** X7: in the result of [map_images_to_pages], the list of a page is the input's file names whose [_page<n>_img<k>] part names that page, in input order, and no page appears twice. *)
Theorem map_images_to_pages_groups text all_images k :
  match Dict.get Z.eqb k (map_images_to_pages text all_images) with Some l => l | None => [] end
  = List.filter (fun im => match image_page im with Some k' => Z.eqb k' k | None => false end)
                all_images
  /\ NoDup (map fst (map_images_to_pages text all_images)).
Proof.
  unfold map_images_to_pages.
  match goal with |- context [fold_left ?f all_images []] => set (F := f) end.
  assert (Hstep : forall d im, NoDup (map fst d) ->
    NoDup (map fst (F d im))
    /\ (match Dict.get Z.eqb k (F d im) with Some l => l | None => [] end)
       = (match Dict.get Z.eqb k d with Some l => l | None => [] end)
         ++ List.filter (fun im => match image_page im with Some k' => Z.eqb k' k | None => false end) [im]).
  { intros d im Hd. unfold F. cbn [List.filter]. unfold image_page.
    destruct (search f0 "_page(\d+)_img\d+" im) as [mr|]; cbn zeta.
    - split; [apply keys_set_Z, Hd|]. rewrite get_set_Z.
      destruct (Z.eqb_spec (int_of_digits (group im mr 1)) k) as [->|]; [reflexivity|].
      rewrite app_nil_r. reflexivity.
    - split; [exact Hd|]. rewrite app_nil_r. reflexivity. }
  assert (H : forall imgs d, NoDup (map fst d) ->
    (match Dict.get Z.eqb k (fold_left F imgs d) with Some l => l | None => [] end)
     = (match Dict.get Z.eqb k d with Some l => l | None => [] end)
       ++ List.filter (fun im => match image_page im with Some k' => Z.eqb k' k | None => false end) imgs
    /\ NoDup (map fst (fold_left F imgs d))).
  { induction imgs as [|im imgs IH]; intros d Hd; cbn [fold_left].
    - rewrite app_nil_r. split; [reflexivity | exact Hd].
    - destruct (Hstep d im Hd) as [Hn He].
      destruct (IH (F d im) Hn) as [IH1 IH2]. split; [|exact IH2].
      rewrite IH1, He. change (im :: imgs) with ([im] ++ imgs).
      rewrite List.filter_app, app_assoc. reflexivity. }
  destruct (H all_images [] NoDup_nil_2) as [H1 H2]. split; [exact H1 | exact H2].
Qed.

End ParserFacts.

(* ------------------------------------------------------------------ *)
(** ** Storage and app flows *)
(* ------------------------------------------------------------------ *)

Module AppFacts.
Import Py Regex Parse Json JsonFacts Storage StorageFacts Paths App.
Local Open Scope list_scope.

(** X8: the exam file path starts with [data/] exactly when the exam name does not start with a slash; an absolute exam name puts the file outside [data/]. *)
Theorem exam_file_under_data (exam_name : string) :
  startswith (get_exam_file_path exam_name) "data/" = negb (startswith exam_name "/").
Proof.
  unfold get_exam_file_path, get_exam_dir, path_join, startswith.
  destruct exam_name as [|c rest]; [reflexivity|].
  assert (Hd : Parse.endswith "data" "/" = false) by reflexivity.
  rewrite Hd; clear Hd.
  assert (He : String.prefix "" rest = true) by (destruct rest; reflexivity).
  destruct (Ascii.ascii_dec c "/") as [->|Hc].
  - cbn -[Parse.endswith]. rewrite He. cbn -[Parse.endswith].
    destruct (Parse.endswith _ "/"); reflexivity.
  - assert (Hp : String.prefix "/" (String c rest) = false).
    { change (String.prefix "/" (String c rest)) with
        (if Ascii.ascii_dec "/" c then String.prefix "" rest else false).
      destruct (Ascii.ascii_dec "/" c); [congruence|reflexivity]. }
    rewrite Hp. cbn -[Parse.endswith].
    destruct (Parse.endswith _ "/"); cbn; rewrite ?He; reflexivity.
Qed.

Lemma dict_get_set_ne (k k' : string) (v : json) (d : record) :
  k <> k' -> Dict.get String.eqb k' (Dict.set String.eqb k v d) = Dict.get String.eqb k' d.
Proof.
  intros Hne. induction d as [|[k0 v0] d IH]; simpl.
  - apply String.eqb_neq in Hne. by rewrite Hne.
  - destruct (String.eqb k0 k) eqn:E; simpl.
    + apply String.eqb_eq in E. subst k0. apply String.eqb_neq in Hne. by rewrite Hne.
    + destruct (String.eqb k0 k'); [reflexivity|exact IH].
Qed.

Lemma renumber_ids (m : Z) (i : nat) (qs : list record) :
  map get_qid_or_0 (renumber m i qs) =
  map (fun j => JInt (m + Z.of_nat j + 1)) (seq i (List.length qs)).
Proof.
  revert i; induction qs as [|q qs IH]; intros i; simpl; [reflexivity|].
  rewrite get_qid_or_0_set, IH. reflexivity.
Qed.

Lemma renumber_other (m : Z) (i : nat) (qs : list record) (k : string) :
  k <> "question_id" ->
  map (Dict.get String.eqb k) (renumber m i qs) = map (Dict.get String.eqb k) qs.
Proof.
  intros Hk. revert i; induction qs as [|q qs IH]; intros i; simpl; [reflexivity|].
  rewrite dict_get_set_ne by congruence. by rewrite IH.
Qed.

(** X9: when every stored question_id is a number (an int or a bool; a missing one counts as 0), [append_questions_to_exam] succeeds and the exam file holds the old records followed by the new ones, numbered max_id+1, max_id+2, ... in order, where max_id is the largest old question_id (0 for an empty exam); the new records keep all their other fields, and no other file changes. *)
Theorem append_questions_success (exam_name : string) (new_questions : list record) (st : fs) :
  Forall (fun q => is_Some (as_int (get_qid_or_0 q))) (stored st exam_name) ->
  let '(r, st') := append_questions_to_exam exam_name new_questions st in
  r = Some tt /\
  exists max_id,
    files st' !! Paths.get_exam_file_path exam_name =
      Some (stored st exam_name ++ renumber max_id 0 new_questions) /\
    Forall (fun q => exists z, as_int (get_qid_or_0 q) = Some z /\ (z <= max_id)%Z)
      (stored st exam_name) /\
    (stored st exam_name = [] -> max_id = 0%Z) /\
    (stored st exam_name <> [] ->
       Exists (fun q => as_int (get_qid_or_0 q) = Some max_id) (stored st exam_name)) /\
    map get_qid_or_0 (renumber max_id 0 new_questions) =
      map (fun i => JInt (max_id + Z.of_nat i + 1)) (seq 0 (List.length new_questions)) /\
    (forall k, k <> "question_id" ->
       map (Dict.get String.eqb k) (renumber max_id 0 new_questions) =
       map (Dict.get String.eqb k) new_questions) /\
    (forall p, p <> Paths.get_exam_file_path exam_name -> files st' !! p = files st !! p).
Proof.
  intros Hall.
  destruct (max_id_of_num _ st Hall) as (m & z & Hm & Hz & H1 & H2 & H3).
  unfold append_questions_to_exam, bind, load_exam. rewrite Hm.
  assert (Hsave : forall qs, files (snd (save_exam exam_name qs st)) !!
                               Paths.get_exam_file_path exam_name = Some qs)
    by (intros qs; simpl; apply lookup_insert_eq).
  assert (Hframe : forall qs p, p <> Paths.get_exam_file_path exam_name ->
                     files (snd (save_exam exam_name qs st)) !! p = files st !! p)
    by (intros qs p Hp; simpl; by apply lookup_insert_ne).
  destruct new_questions as [|nq nqs].
  - split; [reflexivity|]. exists z.
    split; [rewrite app_nil_r; apply Hsave|].
    split; [exact H1|]. split; [exact H2|]. split; [exact H3|].
    split; [reflexivity|]. split; [reflexivity|]. apply Hframe.
  - rewrite Hz. split; [reflexivity|]. exists z.
    split; [apply Hsave|].
    split; [exact H1|]. split; [exact H2|]. split; [exact H3|].
    split; [apply renumber_ids|]. split; [intros k Hk; by apply renumber_other|].
    apply Hframe.
Qed.

(** X10: when there are new questions and some stored question_id is a string, None, a list or a dict, [append_questions_to_exam] raises and writes nothing: [max] raises when it compares that id with an id of another kind, and otherwise its result is not a number, so [max_id + 0] raises. *)
Theorem append_questions_raises (exam_name : string) (new_questions : list record) (st : fs) :
  new_questions <> [] ->
  Exists (fun q => match get_qid_or_0 q with
                   | JStr _ | JNull | JList _ | JObj _ => True
                   | JInt _ | JBool _ => False
                   end) (stored st exam_name) ->
  append_questions_to_exam exam_name new_questions st = (None, st).
Proof.
  intros Hnew H.
  assert (H' : Exists (fun q => as_int (get_qid_or_0 q) = None) (stored st exam_name)).
  { apply List.Exists_exists in H as (q & Hin & Hq). apply List.Exists_exists.
    exists q. split; [exact Hin|]. by destruct (get_qid_or_0 q). }
  unfold append_questions_to_exam, bind, load_exam.
  destruct (max_id_of_not_num _ st H') as [->|(m & -> & Hm)]; [reflexivity|].
  destruct new_questions as [|nq nqs]; [contradiction|]. by rewrite Hm.
Qed.

Lemma parse_first_id (text source_pdf : string) (images_by_page : Dict.dict Z (list string))
    (s0 num blk : string) (rest : list string) :
  split fM question_pattern text = s0 :: num :: blk :: rest ->
  strip blk <> "" ->
  exists q qs, parse_questions_from_text text source_pdf images_by_page = q :: qs /\
               qid_matches 1 q = true.
Proof.
  intros Hs Hb. unfold parse_questions_from_text. rewrite Hs. cbn [tl List.length Nat.ltb Nat.leb].
  simpl parse_pairs. unfold parse_block at 1.
  destruct (String.eqb (strip blk) "") eqn:E; [apply String.eqb_eq in E; contradiction|].
  destruct (split_stem _) as [a b]. eexists _, _. split; reflexivity.
Qed.

Lemma filter_flat_map {A B} (p : B -> bool) (f : A -> list B) (l : list A) :
  List.filter p (flat_map f l) = flat_map (fun x => List.filter p (f x)) l.
Proof.
  induction l as [|x l IH]; simpl; [reflexivity|]. by rewrite List.filter_app, IH.
Qed.

Lemma parse_first_id_count (text source_pdf : string)
    (images_by_page : Dict.dict Z (list string)) (s0 num blk : string) (rest : list string) :
  split fM question_pattern text = s0 :: num :: blk :: rest ->
  strip blk <> "" ->
  1 <= List.length (List.filter (qid_matches 1)
                      (parse_questions_from_text text source_pdf images_by_page)).
Proof.
  intros Hs Hb.
  destruct (parse_first_id text source_pdf images_by_page s0 num blk rest Hs Hb)
    as (q & qs & -> & Hq).
  cbn [List.filter]. rewrite Hq. cbn [List.length]. lia.
Qed.

Lemma first_block_qid1 (u : upload) :
  first_block_nonblank u = true ->
  1 <= List.length (List.filter (qid_matches 1) (process_upload u)).
Proof.
  unfold first_block_nonblank, process_upload.
  destruct (Extract.extract_text_and_images (splitext_root (up_name u)) (up_pages u))
    as [full_text image_paths].
  unfold fst.
  destruct (Regex.split Regex.fM Parse.question_pattern (Extract.clean_text full_text))
    as [|s0 [|num [|blk rest]]] eqn:Hs; try discriminate.
  intros Hu. apply (parse_first_id_count _ _ _ s0 num blk rest Hs).
  intros Hb. rewrite Hb in Hu. discriminate.
Qed.

(** X11: creating an exam (not appending) from any list of uploaded PDFs stores at least as many records with question_id 1 as there are PDFs whose first question block is non-blank: the ids restart in each such PDF. *)
Theorem create_exam_restarts_ids (exam_name : string) (append_to_existing : bool)
    (uploaded_files : list upload) (st : fs) :
  (append_to_existing = false \/ files st !! Paths.get_exam_file_path exam_name = None) ->
  let '(r, st') := create_exam exam_name append_to_existing uploaded_files st in
  r = Some tt /\
  List.length (List.filter first_block_nonblank uploaded_files) <=
  List.length (List.filter (qid_matches 1) (stored st' exam_name)).
Proof.
  intros Hnew.
  assert (Hex : (if append_to_existing then exam_exists exam_name else ret false) st
                = (Some false, st)).
  { destruct Hnew as [->|Hn]; [reflexivity|].
    destruct append_to_existing; [|reflexivity].
    unfold exam_exists. rewrite Hn. reflexivity. }
  unfold create_exam, bind. rewrite Hex.
  unfold save_exam. cbv beta zeta iota. split; [reflexivity|].
  unfold stored. cbn [files]. rewrite lookup_insert_eq.
  unfold all_questions_of. rewrite filter_flat_map.
  induction uploaded_files as [|u us IH]; [simpl; lia|].
  cbn [List.filter flat_map]. rewrite length_app.
  destruct (first_block_nonblank u) eqn:Hu; cbn [List.length]; [|lia].
  pose proof (first_block_qid1 u Hu). lia.
Qed.

Lemma total_pages_spec (n q : nat) :
  0 < q -> n <= total_pages n q * q /\ (0 < n -> 0 < total_pages n q) /\
           forall p, p < total_pages n q -> p * q < n.
Proof.
  intros Hq. unfold total_pages.
  pose proof (Nat.div_mod (n + q - 1) q ltac:(lia)) as Hd.
  pose proof (Nat.mod_upper_bound (n + q - 1) q ltac:(lia)) as Hm.
  set (T := (n + q - 1) / q) in *. set (r := (n + q - 1) mod q) in *.
  split; [nia|]. split.
  - intros Hn. destruct T; [nia|lia].
  - intros p Hp. nia.
Qed.

Lemma page_view_in_range {A} (qs : list A) (q p : nat) :
  p < total_pages (List.length qs) q ->
  page_view qs q p = (p, firstn (Nat.min (p * q + q) (List.length qs) - p * q) (skipn (p * q) qs)).
Proof.
  intros Hp. unfold page_view.
  destruct (total_pages (List.length qs) q <=? p) eqn:E; [apply Nat.leb_le in E; lia|].
  reflexivity.
Qed.

Lemma pages_prefix {A} (qs : list A) (q k : nat) :
  0 < q -> k <= total_pages (List.length qs) q ->
  concat (map (fun p => snd (page_view qs q p)) (seq 0 k)) = firstn (Nat.min (k * q) (List.length qs)) qs.
Proof.
  intros Hq. induction k as [|k IH]; intros Hk; [reflexivity|].
  rewrite seq_S, map_app, concat_app, IH by lia. cbn [map concat].
  rewrite page_view_in_range by lia. cbn [snd]. rewrite app_nil_r.
  destruct (total_pages_spec (List.length qs) q Hq) as (_ & _ & Hlt).
  specialize (Hlt k ltac:(lia)).
  replace (Nat.min (k * q) (List.length qs)) with (k * q) by lia.
  rewrite take_take_drop. f_equal. rewrite Nat.mul_succ_l. lia.
Qed.

(** X12: with a positive page size, the pages of [take_exam_page] shown in order cover the questions exactly once, in order. *)
Theorem pages_cover_questions {A} (questions : list A) (questions_per_page : nat) :
  0 < questions_per_page ->
  concat (map (fun p => snd (page_view questions questions_per_page p))
              (seq 0 (total_pages (List.length questions) questions_per_page)))
  = questions.
Proof.
  intros Hq. rewrite pages_prefix by lia.
  destruct (total_pages_spec (List.length questions) questions_per_page Hq) as (H & _).
  rewrite Nat.min_r by lia. apply firstn_all.
Qed.

(** X13: for a non-empty exam and a positive page size, the page shown is the requested one when in range and page 0 otherwise, and it holds between 1 and page-size questions. *)
Theorem page_view_shown {A} (questions : list A) (questions_per_page current_page : nat) :
  0 < questions_per_page -> questions <> [] ->
  let total := total_pages (List.length questions) questions_per_page in
  let '(shown, page) := page_view questions questions_per_page current_page in
  shown = (if current_page <? total then current_page else 0) /\ shown < total /\
  page <> [] /\ List.length page <= questions_per_page.
Proof.
  intros Hq Hne total.
  assert (Hn : 0 < List.length questions) by (destruct questions; [done|simpl; lia]).
  destruct (total_pages_spec (List.length questions) questions_per_page Hq) as (_ & Hpos & Hlt).
  specialize (Hpos Hn).
  set (shown := if current_page <? total then current_page else 0).
  assert (Hs : shown < total) by (unfold shown; destruct (Nat.ltb_spec current_page total); lia).
  assert (Hv : page_view questions questions_per_page current_page =
               page_view questions questions_per_page shown).
  { unfold page_view, shown. fold total.
    destruct (Nat.ltb_spec current_page total).
    - reflexivity.
    - destruct (Nat.leb_spec total current_page); [|lia].
      destruct (Nat.leb_spec total 0); [lia|reflexivity]. }
  rewrite Hv, page_view_in_range by exact Hs.
  specialize (Hlt shown Hs).
  split; [reflexivity|]. split; [exact Hs|].
  rewrite length_firstn, length_skipn. split; [|lia].
  intros Hnil. apply (f_equal (@List.length A)) in Hnil.
  rewrite length_firstn, length_skipn in Hnil. simpl in Hnil. lia.
Qed.

Lemma upper_cp_no_lower_o (c : ascii) : existsb (Z.eqb 111) (upper_cp c) = false.
Proof. destruct c as [[] [] [] [] [] [] [] []]; reflexivity. Qed.

Lemma upper_cp_comma (c : ascii) : existsb (Z.eqb 44) (upper_cp c) = Ascii.eqb c ",".
Proof. destruct c as [[] [] [] [] [] [] [] []]; reflexivity. Qed.

Lemma normalize_str_has (z : Z) (s : string) :
  existsb (Z.eqb z) (normalize_str s) =
  existsb (fun c => existsb (Z.eqb z) (upper_cp c))
          (List.filter (fun c => negb (Ascii.eqb c " ")) (chars s)).
Proof.
  unfold normalize_str.
  induction (List.filter _ (chars s)) as [|c l IH]; simpl; [reflexivity|].
  by rewrite existsb_app, IH.
Qed.

Lemma normalize_str_not_None (s : string) : normalize_str s <> codes (chars "None").
Proof.
  intros H. apply (f_equal (existsb (Z.eqb 111))) in H.
  rewrite normalize_str_has in H.
  change (existsb (Z.eqb 111) (codes (chars "None"))) with true in H.
  apply existsb_exists in H as (c & _ & Hc).
  rewrite upper_cp_no_lower_o in Hc. discriminate.
Qed.

(** X14: in [display_exam_results] an unanswered question is graded correct exactly when its expected answer (web answer, or pdf_answer when the web answer is falsy) is missing or null. *)
Theorem unanswered_correct_iff (question : record) :
  is_correct None question = Some true <->
  correct_answer question = None \/ correct_answer question = Some JNull.
Proof.
  unfold is_correct. simpl option_map.
  destruct (correct_answer question) as [[| b | z | s | l | kvs]|]; simpl.
  - split; [by right|reflexivity].
  - split; [|intros [H|H]; discriminate].
    destruct b; vm_compute; discriminate.
  - split; [|intros [H|H]; discriminate].
    rewrite bool_decide_eq_false_2; [discriminate|].
    destruct (int_repr_head z) as (c & rest & -> & Hc). intros H.
    injection H as Hcz _. assert (c = "N"%char).
    { assert (Hn : nat_of_ascii c = 78) by (apply Nat2Z.inj in Hcz; unfold code in Hcz; change (nat_of_ascii "N") with 78 in Hcz; lia).
      rewrite <- (ascii_nat_embedding c), Hn. reflexivity. }
    subst c. discriminate.
  - split; [|intros [H|H]; discriminate].
    rewrite bool_decide_eq_false_2; [discriminate|].
    intros H. symmetry in H. by apply normalize_str_not_None in H.
  - split; [discriminate|intros [H|H]; discriminate].
  - split; [discriminate|intros [H|H]; discriminate].
  - split; [by left|reflexivity].
Qed.

(** X15: a user answer with a comma (a multi-select answer such as A,B) is never graded correct against an expected answer string without a comma (such as AB). *)
Theorem comma_answer_never_correct (user_answer expected : string) (question : record) :
  correct_answer question = Some (JStr expected) ->
  In ","%char (chars user_answer) -> ~ In ","%char (chars expected) ->
  is_correct (Some user_answer) question = Some false.
Proof.
  intros Hc Hu He. unfold is_correct. rewrite Hc. simpl.
  rewrite bool_decide_eq_false_2; [reflexivity|]. intros H.
  apply (f_equal (existsb (Z.eqb 44))) in H. rewrite !normalize_str_has in H.
  assert (Hcomma : forall l, existsb (fun c => existsb (Z.eqb 44) (upper_cp c))
                     (List.filter (fun c => negb (Ascii.eqb c " ")) l) = existsb (fun c => Ascii.eqb c ",") l).
  { induction l as [|c l IH]; [reflexivity|]. simpl.
    destruct (Ascii.eqb c " ") eqn:Es; simpl; rewrite ?upper_cp_comma, IH; [|reflexivity].
    apply Ascii.eqb_eq in Es. by subst c. }
  rewrite !Hcomma in H.
  assert (H1 : existsb (fun c => Ascii.eqb c ",") (chars user_answer) = true).
  { apply existsb_exists. exists ","%char. split; [exact Hu|apply Ascii.eqb_refl]. }
  rewrite H1 in H. symmetry in H. apply existsb_exists in H as (c & Hin & Hc').
  apply Ascii.eqb_eq in Hc'. subst c. contradiction.
Qed.

Lemma chars_app (a b : string) : chars (a ++ b)%string = chars a ++ chars b.
Proof. induction a as [|c a IH]; simpl; [reflexivity|]. unfold chars in *. by rewrite IH. Qed.

Lemma split_l_none (sep : ascii) (l : list ascii) : ~ In sep l -> split_l sep l = [l].
Proof.
  induction l as [|d l IH]; intros H; simpl; [reflexivity|].
  rewrite IH by (intros Hin; apply H; by right).
  destruct (Ascii.eqb_spec d sep); [subst; destruct H; by left|reflexivity].
Qed.

Lemma split_l_app (sep : ascii) (l1 l2 : list ascii) :
  ~ In sep l1 -> split_l sep (l1 ++ sep :: l2) = l1 :: split_l sep l2.
Proof.
  induction l1 as [|d l1 IH]; intros H; simpl.
  - by rewrite Ascii.eqb_refl.
  - rewrite IH by (intros Hin; apply H; by right).
    destruct (Ascii.eqb_spec d sep); [subst; destruct H; by left|reflexivity].
Qed.

Lemma split_join (ks : list string) :
  ks <> [] -> Forall (fun k => ~ In ","%char (chars k)) ks ->
  split_l "," (chars (join "," ks)) = map chars ks.
Proof.
  unfold join. induction ks as [|k [|k2 ks] IH]; intros Hne Hall; [done| |].
  - inversion Hall; subst. simpl. by apply split_l_none.
  - inversion Hall as [|? ? Hk Hks]; subst.
    change (String.concat "," (k :: k2 :: ks)) with ((k ++ "," ++ String.concat "," (k2 :: ks))%string).
    rewrite !chars_app. change (chars ",") with [","%char]. cbn [app].
    rewrite split_l_app by exact Hk. rewrite IH by done. reflexivity.
Qed.

Lemma insert_sorted_perm (x : string) (l : list string) :
  Permutation (insert_sorted x l) (x :: l).
Proof.
  induction l as [|y l IH]; simpl; [reflexivity|].
  destruct (str_ltb (chars y) (chars x)); [|reflexivity].
  rewrite IH. apply perm_swap.
Qed.

Lemma sorted_perm (l : list string) : Permutation (sorted l) l.
Proof.
  induction l as [|x l IH]; simpl; [reflexivity|].
  rewrite insert_sorted_perm. by apply perm_skip.
Qed.

(** X16: a multi-select answer stored as [",".join(sorted(answer))] is restored by [display_question] to the sorted selection, when no option key contains a comma or surrounding spaces. *)
Theorem selection_round_trip (answer : list string) :
  answer <> [] ->
  Forall (fun k => ~ In ","%char (chars k) /\ strip k = k) answer ->
  restore_selection (store_selection answer) = sorted answer.
Proof.
  intros Hne Hall.
  assert (Hs : Forall (fun k => ~ In ","%char (chars k) /\ strip k = k) (sorted answer)).
  { eapply Permutation_Forall; [symmetry; apply sorted_perm|exact Hall]. }
  assert (Hsne : sorted answer <> []).
  { intros H. apply Hne. apply Permutation_nil. rewrite <- H. apply sorted_perm. }
  unfold restore_selection, store_selection, split_sep.
  rewrite split_join; [|exact Hsne|].
  2: { eapply Forall_impl; [exact Hs|]. intros k [Hk _]. exact Hk. }
  rewrite map_map. clear Hne Hall Hsne.
  induction Hs as [|k ks [_ Hk] _ IH]; simpl; [reflexivity|].
  unfold of_chars, chars. rewrite string_of_list_ascii_of_string.
  f_equal; [exact Hk|exact IH].
Qed.

End AppFacts.

(* ------------------------------------------------------------------ *)
(** ** Witnesses of the storage, parser and app theorems *)
(* ------------------------------------------------------------------ *)

Module ExtraWitnesses.
Import Py Regex Parse Json Storage Paths App.
Local Open Scope list_scope.

Lemma loads_dumps_witness :
  let v := JObj [("a", JList [JInt (-3); JStr "x/y"; JBool true]); ("b", JNull)] in
  wf v = true /\ loads_l (chars (dumps v)) = Some v.
Proof.
  intros v. split; [reflexivity|]. apply (JsonFacts.loads_dumps v). reflexivity.
Defined.

Lemma load_text_save_text_witness :
  let qs := [[("question_id", JInt 1); ("question", JStr "Why?")]; [("choices", JObj [("A", JStr "x")])]] in
  forallb (fun q => wf (JObj q)) qs = true /\ load_text (save_text qs) = Some (map JObj qs).
Proof.
  intros qs. split; [reflexivity|]. apply (JsonFacts.load_text_save_text qs). reflexivity.
Defined.

Lemma parsed_records_shape_witness :
  let text := String.concat nl_str ["Question 1"; "What is 2+2?"; "A. 3"; "B. 4"; "Suggested Answer: B"; ""] in
  let q := [("question_id", JInt 1); ("pdf_question_number", JStr "1"); ("source_pdf", JStr "doc");
            ("page_number", JInt 1); ("question_type", JStr "multiple_choice_single");
            ("question", JStr "What is 2+2?");
            ("choices", JObj [("A", JStr "3"); ("B", JStr "4")]);
            ("pdf_answer", JStr "B"); ("web_recommended_answer", JStr "");
            ("ai_recommended_answer", JStr ""); ("web_explanation", JStr "");
            ("ai_explanation", JStr ""); ("images", JList []); ("user_answer", JNull)] in
  In q (parse_questions_from_text text "doc" []) /\
  map fst q = ParseOut.record_keys
  /\ Dict.get String.eqb "source_pdf" q = Some (JStr "doc")
  /\ Dict.get String.eqb "user_answer" q = Some JNull
  /\ exists t, Dict.get String.eqb "question_type" q = Some (JStr t) /\ In t ParseOut.question_types.
Proof.
  intros text q.
  assert (H : In q (parse_questions_from_text text "doc" [])) by (vm_compute; left; reflexivity).
  split; [exact H|]. apply (ParserFacts.parsed_records_shape text "doc" [] q H).
Defined.

Lemma extract_answer_alphabet_witness :
  let text := String.concat nl_str ["x"; "Suggested Answer: B, D"; "y"] in
  extract_answer text "Suggested Answer" = Some "B,D" /\
  Forall (fun c => is_alpha c = true \/ c = ","%char) (chars "B,D").
Proof.
  intros text.
  assert (H : extract_answer text "Suggested Answer" = Some "B,D") by (vm_compute; reflexivity).
  split; [exact H|]. apply (ParserFacts.extract_answer_alphabet text "Suggested Answer" "B,D" H).
Defined.

Lemma append_questions_success_witness :
  let st := {| files := {[ Paths.get_exam_file_path "exam" :=
                             [[("question_id", JInt 1)]; [("question_id", JInt 5)];
                              [("question", JStr "no id")]] ]};
               writes := [] |} in
  let new_questions := [[("question", JStr "p")]; [("question_id", JInt 1); ("question", JStr "q")]] in
  Forall (fun q => is_Some (as_int (get_qid_or_0 q))) (stored st "exam") /\
  let '(r, st') := append_questions_to_exam "exam" new_questions st in
  r = Some tt /\
  exists max_id,
    files st' !! Paths.get_exam_file_path "exam" =
      Some (stored st "exam" ++ renumber max_id 0 new_questions) /\
    Forall (fun q => exists z, as_int (get_qid_or_0 q) = Some z /\ (z <= max_id)%Z)
      (stored st "exam") /\
    (stored st "exam" = [] -> max_id = 0%Z) /\
    (stored st "exam" <> [] ->
       Exists (fun q => as_int (get_qid_or_0 q) = Some max_id) (stored st "exam")) /\
    map get_qid_or_0 (renumber max_id 0 new_questions) =
      map (fun i => JInt (max_id + Z.of_nat i + 1)) (seq 0 (List.length new_questions)) /\
    (forall k, k <> "question_id" ->
       map (Dict.get String.eqb k) (renumber max_id 0 new_questions) =
       map (Dict.get String.eqb k) new_questions) /\
    (forall p, p <> Paths.get_exam_file_path "exam" -> files st' !! p = files st !! p).
Proof.
  intros st new_questions.
  assert (H : Forall (fun q => is_Some (as_int (get_qid_or_0 q))) (stored st "exam")).
  { vm_compute. repeat constructor; eexists; reflexivity. }
  split; [exact H|]. apply (AppFacts.append_questions_success "exam" new_questions st H).
Defined.

Lemma append_questions_raises_witness :
  let st := {| files := {[ Paths.get_exam_file_path "exam" :=
                             [[("question_id", JInt 1)]; [("question_id", JStr "2")]] ]};
               writes := [] |} in
  let new_questions := [[("question", JStr "p")]] in
  new_questions <> [] /\
  Exists (fun q => match get_qid_or_0 q with
                   | JStr _ | JNull | JList _ | JObj _ => True
                   | JInt _ | JBool _ => False
                   end) (stored st "exam") /\
  append_questions_to_exam "exam" new_questions st = (None, st).
Proof.
  intros st new_questions.
  assert (H1 : new_questions <> []) by discriminate.
  assert (H2 : Exists (fun q => match get_qid_or_0 q with
                                | JStr _ | JNull | JList _ | JObj _ => True
                                | JInt _ | JBool _ => False
                                end) (stored st "exam")).
  { vm_compute. right. left. exact I. }
  split; [exact H1|]. split; [exact H2|].
  apply (AppFacts.append_questions_raises "exam" new_questions st H1 H2).
Defined.

Lemma create_exam_restarts_ids_witness :
  let pg := fun t => {| Extract.pg_text := t; Extract.pg_images := []; Extract.pg_drawings := [];
                        Extract.pg_pixmap := None |} in
  let text := String.concat nl_str ["Question 1"; "What?"; "A. x"; "B. y"; "Suggested Answer: A"; ""] in
  let uploaded_files := [{| up_name := "a.pdf"; up_pages := [pg text] |};
                         {| up_name := "cover.pdf"; up_pages := [pg "Practice exam"] |};
                         {| up_name := "b.pdf"; up_pages := [pg text] |}] in
  let st := {| files := ∅; writes := [] |} in
  (false = false \/ files st !! Paths.get_exam_file_path "exam" = None) /\
  List.length (List.filter first_block_nonblank uploaded_files) = 2 /\
  let '(r, st') := create_exam "exam" false uploaded_files st in
  r = Some tt /\
  List.length (List.filter first_block_nonblank uploaded_files) <=
  List.length (List.filter (qid_matches 1) (stored st' "exam")).
Proof.
  intros pg text uploaded_files st.
  assert (H : false = false \/ files st !! Paths.get_exam_file_path "exam" = None)
    by (left; reflexivity).
  split; [exact H|]. split; [vm_compute; reflexivity|].
  apply (AppFacts.create_exam_restarts_ids "exam" false uploaded_files st H).
Defined.

Lemma pages_cover_questions_witness :
  0 < 2 /\
  concat (map (fun p => snd (page_view [1; 2; 3; 4; 5] 2 p))
              (seq 0 (total_pages (List.length [1; 2; 3; 4; 5]) 2))) = [1; 2; 3; 4; 5].
Proof.
  split; [lia|]. apply (AppFacts.pages_cover_questions [1; 2; 3; 4; 5] 2). lia.
Defined.

Lemma page_view_shown_witness :
  0 < 2 /\ [1; 2; 3; 4; 5] <> [] /\
  let total := total_pages (List.length [1; 2; 3; 4; 5]) 2 in
  let '(shown, page) := page_view [1; 2; 3; 4; 5] 2 7 in
  shown = (if 7 <? total then 7 else 0) /\ shown < total /\
  page <> [] /\ List.length page <= 2.
Proof.
  assert (H : [1; 2; 3; 4; 5] <> []) by discriminate.
  split; [lia|]. split; [exact H|].
  apply (AppFacts.page_view_shown [1; 2; 3; 4; 5] 2 7); [lia|exact H].
Defined.

Lemma comma_answer_never_correct_witness :
  let question := [("web_recommended_answer", JStr ""); ("pdf_answer", JStr "AB")] in
  correct_answer question = Some (JStr "AB") /\
  In ","%char (chars "A,B") /\ ~ In ","%char (chars "AB") /\
  is_correct (Some "A,B") question = Some false.
Proof.
  intros question.
  assert (H1 : correct_answer question = Some (JStr "AB")) by reflexivity.
  assert (H2 : In ","%char (chars "A,B")) by (simpl; right; left; reflexivity).
  assert (H3 : ~ In ","%char (chars "AB")) by (simpl; intros [H|[H|[]]]; discriminate H).
  split; [exact H1|]. split; [exact H2|]. split; [exact H3|].
  apply (AppFacts.comma_answer_never_correct "A,B" "AB" question H1 H2 H3).
Defined.

Lemma selection_round_trip_witness :
  ["C"; "A"] <> [] /\
  Forall (fun k => ~ In ","%char (chars k) /\ strip k = k) ["C"; "A"] /\
  restore_selection (store_selection ["C"; "A"]) = sorted ["C"; "A"].
Proof.
  assert (H1 : ["C"; "A"] <> []) by discriminate.
  assert (H2 : Forall (fun k => ~ In ","%char (chars k) /\ strip k = k) ["C"; "A"]).
  { repeat constructor; simpl; intros [H|[]]; discriminate H. }
  split; [exact H1|]. split; [exact H2|].
  apply (AppFacts.selection_round_trip ["C"; "A"] H1 H2).
Defined.

End ExtraWitnesses.
